(** * Learning Buddy: quiz parsing, answer normalisation and grading

    A shallow embedding of [app.py]: [_normalize_text], [check_answers],
    [_parse_quiz_json] and [generate_quiz].

    Python [str] values are modelled as [string]; a character is the code
    point it carries, in the range U+0000..U+00FF, where [str.lower] acts
    character by character.  Module [Unicode] gives [_normalize_text] on
    texts of arbitrary code points, with [str.lower] and the character
    classes as parameters.  Python [int] is [Z].  Code that can raise is
    written in the [result] monad below. *)

From Stdlib Require Import Bool List ZArith NArith Lia Ascii String.
From Stdlib Require Import DecimalString PrimFloat.
Import ListNotations.

Local Open Scope string_scope.
Local Open Scope bool_scope.

(** ** Exceptions *)

Inductive exn : Type :=
| IndexError
| ValueError (msg : string)
| RuntimeError (msg : string)
| AttributeError (msg : string).

Inductive result (A : Type) : Type :=
| Ok (a : A)
| Raise (e : exn).
Arguments Ok {A} a.
Arguments Raise {A} e.

Definition bind {A B : Type} (m : result A) (k : A -> result B) : result B :=
  match m with
  | Ok a => k a
  | Raise e => Raise e
  end.

Notation "x <- m ;; k" := (bind m (fun x => k))
  (at level 61, m at next level, right associativity).

(** [try: body except Exception: handler] *)
Definition try_except {A : Type} (body : result A) (handler : A) : result A :=
  match body with
  | Ok a => Ok a
  | Raise _ => Ok handler
  end.

(** ** Characters *)

Definition code (c : ascii) : N := N_of_ascii c.

Definition between (lo hi : N) (c : ascii) : bool :=
  ((lo <=? code c) && (code c <=? hi))%N.

(** [str.isspace] on one character; it is also the class [\s] of [re]. *)
Definition isspace (c : ascii) : bool :=
  between 9 13 c || between 28 32 c || (code c =? 133)%N || (code c =? 160)%N.

(** [str.isalnum] on one character. *)
Definition isalnum (c : ascii) : bool :=
  between 48 57 c || between 65 90 c || between 97 122 c
  || (code c =? 170)%N || between 178 179 c || (code c =? 181)%N
  || between 185 186 c || between 188 190 c
  || between 192 214 c || between 216 246 c || between 248 255 c.

(** The class [\w] of [re]: alphanumerics and the underscore. *)
Definition re_word (c : ascii) : bool := isalnum c || (c =? "_")%char.

(** The class [\s]. *)
Definition re_space (c : ascii) : bool := isspace c.

(** The class [[\W_]] of the first substitution in [_normalize_text]. *)
Definition re_nonword_or_underscore (c : ascii) : bool :=
  negb (re_word c) || (c =? "_")%char.

Definition has_lower (c : ascii) : bool :=
  between 65 90 c || between 192 214 c || between 216 222 c.

Definition lower_char (c : ascii) : ascii :=
  if has_lower c then ascii_of_N (code c + 32) else c.

(** ** Strings *)

Definition is_empty (s : string) : bool :=
  match s with
  | EmptyString => true
  | String _ _ => false
  end.

(** [s.lower()] *)
Fixpoint lower (s : string) : string :=
  match s with
  | EmptyString => EmptyString
  | String c t => String (lower_char c) (lower t)
  end.

Fixpoint lstrip (s : string) : string :=
  match s with
  | EmptyString => EmptyString
  | String c t => if isspace c then lstrip t else s
  end.

Fixpoint rstrip (s : string) : string :=
  match s with
  | EmptyString => EmptyString
  | String c t =>
      let r := rstrip t in
      if isspace c && is_empty r then EmptyString else String c r
  end.

(** [s.strip()] *)
Definition strip (s : string) : string := lstrip (rstrip s).

(** [re.sub(r"[cls]+", repl, s)] for a character class [cls]: scanning from
    the left, every maximal run of characters of the class is replaced by
    [repl].  [in_run] records that the previous character belonged to the
    run being replaced. *)
Fixpoint re_sub_runs (cls : ascii -> bool) (repl : string) (in_run : bool)
    (s : string) : string :=
  match s with
  | EmptyString => EmptyString
  | String c t =>
      if cls c then
        if in_run then re_sub_runs cls repl true t
        else repl ++ re_sub_runs cls repl true t
      else String c (re_sub_runs cls repl false t)
  end.

Definition re_sub (cls : ascii -> bool) (repl s : string) : string :=
  re_sub_runs cls repl false s.

(** Every character of the class [cls] is a blank with no neighbour of the
    class; [prev] tells whether the character before belongs to the class.
    This is the shape of a text after [re_sub cls " "]. *)
Fixpoint isolated_blanks (cls : ascii -> bool) (prev : bool) (s : string) : bool :=
  match s with
  | EmptyString => true
  | String c t =>
      if cls c then negb prev && (c =? " ")%char && isolated_blanks cls true t
      else isolated_blanks cls false t
  end.

(** [needle in hay] *)
Fixpoint contains (needle hay : string) : bool :=
  prefix needle hay
  || match hay with
     | EmptyString => false
     | String _ t => contains needle t
     end.

(** ** [_normalize_text] *)

Definition _normalize_text (s : string) : string :=
  let s := strip (lower s) in
  let s := re_sub re_nonword_or_underscore " " s in
  let s := strip (re_sub re_space " " s) in
  s.

(** ** [check_answers] *)

(** [l[i]], which raises [IndexError] out of range. *)
Definition list_get {A : Type} (l : list A) (i : nat) : result A :=
  match nth_error l i with
  | Some x => Ok x
  | None => Raise IndexError
  end.

(** [for i in idx: st = body(st, i)] *)
Fixpoint for_each {S : Type} (idx : list nat) (body : S -> nat -> result S)
    (st : S) : result S :=
  match idx with
  | [] => Ok st
  | i :: rest => st' <- body st i ;; for_each rest body st'
  end.

(** The truth value of
    [user == correct or (user and user in correct) or (correct and correct in user)]. *)
Definition is_correct (user correct : string) : bool :=
  (user =? correct)
  || (negb (is_empty user) && contains user correct)
  || (negb (is_empty correct) && contains correct user).

Definition affirmative : string := "Correct!".

Definition grade_body (user_answers correct_answers : list string)
    (st : Z * list string) (i : nat) : result (Z * list string) :=
  let '(score, feedback) := st in
  ua <- list_get user_answers i ;;
  ca <- list_get correct_answers i ;;
  let user := _normalize_text ua in
  let correct := _normalize_text ca in
  if is_correct user correct then
    Ok ((score + 1)%Z, (feedback ++ [affirmative])%list)
  else
    expected <- list_get correct_answers i ;;
    Ok (score, (feedback ++ [("Not quite. Expected: " ++ expected)%string])%list).

Definition check_answers (user_answers correct_answers : list string)
    : result (Z * list string) :=
  let total := Nat.min (List.length user_answers) (List.length correct_answers) in
  for_each (seq 0 total) (grade_body user_answers correct_answers) (0%Z, []).

(** ** Python objects returned by [json.loads] *)

#[local] Set Warnings "-register-all".

Inductive pyobj : Type :=
| PyNone
| PyBool (b : bool)
| PyInt (n : Z)
| PyFloat (x : float)
| PyStr (s : string)
| PyList (xs : list pyobj)
| PyDict (kvs : list (string * pyobj)).

(** [d.get(k)]: [None] when the key is absent. *)
Fixpoint dict_lookup (k : string) (kvs : list (string * pyobj)) : option pyobj :=
  match kvs with
  | [] => None
  | (k', v) :: rest => if k' =? k then Some v else dict_lookup k rest
  end.

(** [d.get(k, default)] *)
Definition dict_get (kvs : list (string * pyobj)) (k : string) (default : pyobj)
    : pyobj :=
  match dict_lookup k kvs with
  | Some v => v
  | None => default
  end.

(** [d[k] = v]: an existing key keeps its position. *)
Fixpoint dict_set (k : string) (v : pyobj) (kvs : list (string * pyobj))
    : list (string * pyobj) :=
  match kvs with
  | [] => [(k, v)]
  | (k', v') :: rest =>
      if k' =? k then (k, v) :: rest else (k', v') :: dict_set k v rest
  end.

Record quiz_item : Type := { question : string; answer : string }.

Record message : Type := { role : string; content : string }.

Definition nl : string := String "010"%char "".

(** [str(n)] for an [int]. *)
Definition str_of_int (n : Z) : string := NilZero.string_of_int (Z.to_int n).

(** ** [_parse_quiz_json], [_call_openai_chat] and [generate_quiz]

    [json.loads], [repr] of a non-string object, the environment and the
    completion service are outside the repository: they are parameters. *)

Section App.

Variable json_loads : string -> result pyobj.
Variable py_repr : pyobj -> string.
Variable getenv : string -> option string.
(** [client.chat.completions.create(...)] followed by
    [.choices[0].message.content], for the client built from the API key;
    the arguments are the key, the model, the messages and [max_tokens]
    (the temperature is the constant 0.7). *)
Variable chat_completions_create :
  string -> string -> list message -> Z -> result string.

(** [str(v)]: a [str] is returned as it is, any other object by its [repr]. *)
Definition py_str (v : pyobj) : string :=
  match v with
  | PyStr s => s
  | _ => py_repr v
  end.

(** The body of the [for item in items] loop. *)
Definition parse_item (normalized : list quiz_item) (item : pyobj)
    : list quiz_item :=
  match item with
  | PyDict kvs =>
      let q := strip (py_str (dict_get kvs "question" (PyStr ""))) in
      let a := strip (py_str (dict_get kvs "answer" (PyStr ""))) in
      if negb (is_empty q) && negb (is_empty a) then
        (normalized ++ [{| question := q; answer := a |}])%list
      else normalized
  | _ => normalized
  end.

Definition questions_list (data : pyobj) : option (list pyobj) :=
  match data with
  | PyDict kvs =>
      match dict_lookup "questions" kvs with
      | Some (PyList items) => Some items
      | _ => None
      end
  | _ => None
  end.

Definition _parse_quiz_json (text : string) : result (list quiz_item) :=
  try_except
    (data <- json_loads text ;;
     match questions_list data with
     | Some items => Ok (fold_left parse_item items [])
     | None =>
         match data with
         | PyList items => Ok (fold_left parse_item items [])
         | _ => Ok []
         end
     end)
    [].

Definition _call_openai_chat (messages : list message) (max_tokens : Z)
    : result string :=
  let api_key := getenv "OPENAI_API_KEY" in
  match api_key with
  | None | Some EmptyString =>
      Raise (RuntimeError
        "OPENAI_API_KEY is not set. Please add it to your .env or environment.")
  | Some api_key =>
      let model :=
        match getenv "OPENAI_MODEL" with
        | Some m => m
        | None => "gpt-4o-mini"
        end in
      resp <- chat_completions_create api_key model messages max_tokens ;;
      Ok (strip resp)
  end.

Definition quiz_system : string :=
  "You are a helpful quiz generator. Create concise questions testing core understanding.".

Definition default_num_questions : Z := 4.

(** [num_questions = None] stands for a call that leaves the argument out. *)
Definition generate_quiz (topic : string) (num_questions : option Z)
    : result (list quiz_item) :=
  let num_questions :=
    match num_questions with
    | Some n => n
    | None => default_num_questions
    end in
  let topic := strip topic in
  let n := Z.max 3 (Z.min 5 num_questions) in
  let system := quiz_system in
  let prompt :=
    "Create a short quiz about the topic. Return JSON with keys: questions -> list of "
    ++ "objects each with 'question' and 'answer'. Keep questions short and clear."
    ++ nl ++ nl ++ "Topic: " ++ topic ++ nl ++ "Number of questions: "
    ++ str_of_int n ++ nl ++ nl ++ "JSON only:" in
  raw <- _call_openai_chat
           [ {| role := "system"; content := system |};
             {| role := "user"; content := prompt |} ] 500 ;;
  items <- _parse_quiz_json raw ;;
  Ok items.

End App.

(** ** The specification's wording, for comparison with the code *)

(** Normalisation as a pipeline over the lowercased text: runs of characters
    that are neither letters nor digits become one space, whitespace runs
    collapse to one space, and the ends are trimmed. *)
Definition nonalnum (c : ascii) : bool := negb (isalnum c).

Definition normalize_spec (s : string) : string :=
  strip (re_sub re_space " " (re_sub nonalnum " " (lower s))).

(** The same pipeline with the underscore counted as a word character. *)
Definition nonword (c : ascii) : bool := negb (re_word c).

Definition normalize_keeping_underscores (s : string) : string :=
  strip (re_sub re_space " " (re_sub nonword " " (lower s))).

(** [needle] occurs in [hay] as a contiguous block. *)
Definition substring_of (needle hay : string) : Prop :=
  exists pre post, hay = pre ++ needle ++ post.

(** The message reported for a user answer [u] against the correct answer
    [c], and whether the pair counts as correct. *)
Definition feedback_for (u c : string) : string :=
  if is_correct (_normalize_text u) (_normalize_text c) then affirmative
  else "Not quite. Expected: " ++ c.

Definition correct_pair (p : string * string) : bool :=
  is_correct (_normalize_text (fst p)) (_normalize_text (snd p)).

Definition graded (pairs : list (string * string)) : Z * list string :=
  (Z.of_nat (List.length (filter correct_pair pairs)),
   map (fun p => feedback_for (fst p) (snd p)) pairs).

(** The quiz prompt for a topic and a question count, and the two messages
    sent to the completion service. *)
Definition quiz_prompt (topic : string) (count : Z) : string :=
  "Create a short quiz about the topic. Return JSON with keys: questions -> list of "
  ++ "objects each with 'question' and 'answer'. Keep questions short and clear."
  ++ nl ++ nl ++ "Topic: " ++ topic ++ nl
  ++ "Number of questions: " ++ str_of_int count ++ nl ++ nl ++ "JSON only:".

Definition quiz_messages (topic : string) (count : Z) : list message :=
  [ {| role := "system"; content := quiz_system |};
    {| role := "user"; content := quiz_prompt topic count |} ].

(** The item source and the filter of the quiz parser. *)
Definition item_source (data : pyobj) : list pyobj :=
  match data with
  | PyDict kvs =>
      match dict_lookup "questions" kvs with
      | Some (PyList items) => items
      | _ => []
      end
  | PyList items => items
  | _ => []
  end.

Definition field_text (py_repr : pyobj -> string) (kvs : list (string * pyobj))
    (k : string) : string :=
  strip (py_str py_repr (dict_get kvs k (PyStr ""))).

Definition kept_item (py_repr : pyobj -> string) (e : pyobj) : list quiz_item :=
  match e with
  | PyDict kvs =>
      let q := field_text py_repr kvs "question" in
      let a := field_text py_repr kvs "answer" in
      if is_empty q || is_empty a then []
      else [{| question := q; answer := a |}]
  | _ => []
  end.

Definition parse_quiz_spec (py_repr : pyobj -> string) (data : pyobj)
    : list quiz_item :=
  flat_map (kept_item py_repr) (item_source data).

(** ** A JSON decoder and a [repr] to instantiate the parameters

    [json_decode] reads the JSON texts made of objects, arrays, strings with
    the simple escapes, integers and the three literals; any other text is
    reported as a [ValueError]. *)

Definition dquote : ascii := "034"%char.

Definition json_ws (c : ascii) : bool :=
  (c =? " ")%char || (code c =? 9)%N || (code c =? 10)%N || (code c =? 13)%N.

Fixpoint skip_ws (s : string) : string :=
  match s with
  | EmptyString => s
  | String c t => if json_ws c then skip_ws t else s
  end.

Fixpoint drop_prefix (p s : string) : option string :=
  match p, s with
  | EmptyString, _ => Some s
  | String _ _, EmptyString => None
  | String a p', String b s' => if (a =? b)%char then drop_prefix p' s' else None
  end.

Definition is_digit (c : ascii) : bool := between 48 57 c.

Fixpoint scan_digits (acc : Z) (s : string) : Z * string :=
  match s with
  | EmptyString => (acc, s)
  | String c t =>
      if is_digit c then scan_digits (10 * acc + Z.of_N (code c - 48))%Z t
      else (acc, s)
  end.

Definition starts_fraction (s : string) : bool :=
  match s with
  | String c _ => (c =? ".")%char || (c =? "e")%char || (c =? "E")%char
  | EmptyString => false
  end.

Definition scan_natural (s : string) : option (Z * string) :=
  match s with
  | String c t =>
      if (c =? "0")%char then Some (0%Z, t)
      else if is_digit c then Some (scan_digits 0 s)
      else None
  | EmptyString => None
  end.

Definition scan_integer (s : string) : option (Z * string) :=
  let signed :=
    match s with
    | String c t =>
        if (c =? "-")%char then
          match scan_natural t with
          | Some (n, r) => Some ((- n)%Z, r)
          | None => None
          end
        else scan_natural s
    | EmptyString => None
    end in
  match signed with
  | Some (n, r) => if starts_fraction r then None else Some (n, r)
  | None => None
  end.

Definition unescape (e : ascii) : option ascii :=
  if (e =? dquote)%char then Some dquote
  else if (e =? "\")%char then Some "\"%char
  else if (e =? "/")%char then Some "/"%char
  else if (e =? "b")%char then Some "008"%char
  else if (e =? "f")%char then Some "012"%char
  else if (e =? "n")%char then Some "010"%char
  else if (e =? "r")%char then Some "013"%char
  else if (e =? "t")%char then Some "009"%char
  else None.

(** The characters after an opening quote, up to the closing one. *)
Fixpoint scan_string (s : string) : option (string * string) :=
  match s with
  | EmptyString => None
  | String c t =>
      if (c =? dquote)%char then Some (EmptyString, t)
      else if (c =? "\")%char then
        match t with
        | String e t' =>
            match unescape e, scan_string t' with
            | Some ch, Some (body, rest) => Some (String ch body, rest)
            | _, _ => None
            end
        | EmptyString => None
        end
      else if (code c <? 32)%N then None
      else
        match scan_string t with
        | Some (body, rest) => Some (String c body, rest)
        | None => None
        end
  end.

Definition scan_literal (s : string) : option (pyobj * string) :=
  match drop_prefix "null" s, drop_prefix "true" s, drop_prefix "false" s with
  | Some r, _, _ => Some (PyNone, r)
  | _, Some r, _ => Some (PyBool true, r)
  | _, _, Some r => Some (PyBool false, r)
  | _, _, _ =>
      match scan_integer s with
      | Some (n, r) => Some (PyInt n, r)
      | None => None
      end
  end.

Fixpoint decode_value (fuel : nat) (s : string) : option (pyobj * string) :=
  match fuel with
  | O => None
  | S fuel' =>
      match s with
      | EmptyString => None
      | String c t =>
          if (c =? "{")%char then
            match skip_ws t with
            | String "}" r => Some (PyDict [], r)
            | t' => decode_members fuel' [] t'
            end
          else if (c =? "[")%char then
            match skip_ws t with
            | String "]" r => Some (PyList [], r)
            | t' => decode_elements fuel' [] t'
            end
          else if (c =? dquote)%char then
            match scan_string t with
            | Some (body, r) => Some (PyStr body, r)
            | None => None
            end
          else scan_literal s
      end
  end
with decode_elements (fuel : nat) (acc : list pyobj) (s : string)
    : option (pyobj * string) :=
  match fuel with
  | O => None
  | S fuel' =>
      match decode_value fuel' s with
      | Some (v, r) =>
          match skip_ws r with
          | String "," r' => decode_elements fuel' (acc ++ [v])%list (skip_ws r')
          | String "]" r' => Some (PyList (acc ++ [v])%list, r')
          | _ => None
          end
      | None => None
      end
  end
with decode_members (fuel : nat) (acc : list (string * pyobj)) (s : string)
    : option (pyobj * string) :=
  match fuel with
  | O => None
  | S fuel' =>
      match s with
      | String c t =>
          if (c =? dquote)%char then
            match scan_string t with
            | Some (key, r) =>
                match skip_ws r with
                | String ":" r' =>
                    match decode_value fuel' (skip_ws r') with
                    | Some (v, r'') =>
                        match skip_ws r'' with
                        | String "," r3 =>
                            decode_members fuel' (dict_set key v acc) (skip_ws r3)
                        | String "}" r3 => Some (PyDict (dict_set key v acc), r3)
                        | _ => None
                        end
                    | None => None
                    end
                | _ => None
                end
            | None => None
            end
          else None
      | EmptyString => None
      end
  end.

Definition json_decode (text : string) : result pyobj :=
  match decode_value (2 * String.length text + 2) (skip_ws text) with
  | Some (v, r) =>
      if is_empty (skip_ws r) then Ok v else Raise (ValueError "Extra data")
  | None => Raise (ValueError "Expecting value")
  end.

(** A rendering of the objects that are not strings, to instantiate
    [py_repr]: exact on [None], the booleans and the integers, and the type
    name for the others, whose [repr] no statement below reads. *)
Definition repr_scalar (v : pyobj) : string :=
  match v with
  | PyNone => "None"
  | PyBool true => "True"
  | PyBool false => "False"
  | PyInt n => str_of_int n
  | PyFloat _ => "<float>"
  | PyStr _ => "<str>"
  | PyList _ => "<list>"
  | PyDict _ => "<dict>"
  end.

(** Writes a JSON text with apostrophes in place of its double quotes. *)
Fixpoint json_text (s : string) : string :=
  match s with
  | EmptyString => EmptyString
  | String c t => String (if (c =? "'")%char then dquote else c) (json_text t)
  end.

Definition quiz_example : string :=
  json_text
    "{'questions': [{'question':'Q1','answer':'A1'},{'question':'','answer':'A2'}]}".

Definition quiz_example_value : pyobj :=
  PyDict [("questions",
           PyList [PyDict [("question", PyStr "Q1"); ("answer", PyStr "A1")];
                   PyDict [("question", PyStr ""); ("answer", PyStr "A2")]])].

(** ** [generate_explanation] *)

Section Explanation.

Variable getenv : string -> option string.
Variable chat_completions_create :
  string -> string -> list message -> Z -> result string.

Definition explanation_system : string :=
  "You are a friendly teacher. Explain complex ideas simply using clear, "
  ++ "concise language and, when helpful, a concrete example. Keep it under 120 words.".

Definition generate_explanation (topic : string) : result string :=
  let topic := strip topic in
  let system := explanation_system in
  let prompt :=
    "Write a short, easy-to-understand explanation of the following topic. "
    ++ "Avoid jargon; if necessary, define it briefly."
    ++ nl ++ nl ++ "Topic: " ++ topic ++ nl ++ nl ++ "Explanation:" in
  _call_openai_chat getenv chat_completions_create
    [ {| role := "system"; content := system |};
      {| role := "user"; content := prompt |} ] 500.

End Explanation.

(** ** Auxiliary notions for the statements *)

(** An environment that holds an API key and nothing else, and a completion
    service that answers every request with the same text. *)
Definition env_with_key (key : string) (name : string) : option string :=
  if name =? "OPENAI_API_KEY" then Some key else None.

Definition env_without_key (name : string) : option string := None.

Definition canned_service (reply : string) (key model : string)
    (messages : list message) (max_tokens : Z) : result string :=
  Ok reply.

Definition failing_service (e : exn) (key model : string)
    (messages : list message) (max_tokens : Z) : result string :=
  Raise e.

(** The record a well-formed quiz item comes from. *)
Definition item_record (it : quiz_item) : pyobj :=
  PyDict [("question", PyStr (question it)); ("answer", PyStr (answer it))].

(** Both texts are non-empty and carry no surrounding whitespace. *)
Definition well_formed_item (it : quiz_item) : Prop :=
  question it <> "" /\ answer it <> ""
  /\ strip (question it) = question it /\ strip (answer it) = answer it.

(** ** The page script of [ui.py]

    One run of the script on the session state it finds.  The widgets'
    return values for the run are given by [widgets]; what the run draws
    below the row of buttons is collected as a list of [element]s. *)

Module Ui.

Record session_state : Type := {
  quiz : list quiz_item;
  topic : string;
  explanation : string;
  user_answers : list string;
  score : option Z;
  feedback : list string
}.

(** The state the script sets up when the keys are missing. *)
Definition fresh : session_state :=
  {| quiz := []; topic := ""; explanation := ""; user_answers := [];
     score := None; feedback := [] |}.

Definition set_quiz (v : list quiz_item) (s : session_state) : session_state :=
  {| quiz := v; topic := topic s; explanation := explanation s;
     user_answers := user_answers s; score := score s; feedback := feedback s |}.

Definition set_topic (v : string) (s : session_state) : session_state :=
  {| quiz := quiz s; topic := v; explanation := explanation s;
     user_answers := user_answers s; score := score s; feedback := feedback s |}.

Definition set_explanation (v : string) (s : session_state) : session_state :=
  {| quiz := quiz s; topic := topic s; explanation := v;
     user_answers := user_answers s; score := score s; feedback := feedback s |}.

Definition set_user_answers (v : list string) (s : session_state) : session_state :=
  {| quiz := quiz s; topic := topic s; explanation := explanation s;
     user_answers := v; score := score s; feedback := feedback s |}.

Definition set_score (v : option Z) (s : session_state) : session_state :=
  {| quiz := quiz s; topic := topic s; explanation := explanation s;
     user_answers := user_answers s; score := v; feedback := feedback s |}.

Definition set_feedback (v : list string) (s : session_state) : session_state :=
  {| quiz := quiz s; topic := topic s; explanation := explanation s;
     user_answers := user_answers s; score := score s; feedback := v |}.

Definition reset_quiz_state (s : session_state) : session_state :=
  set_feedback [] (set_score None (set_user_answers [] (set_quiz [] s))).

Record widgets : Type := {
  topic_input : string;
  generate_clicked : bool;
  clear_clicked : bool;
  (** the text of the box for question [idx], created with a given value *)
  answer_input : nat -> string -> string;
  submit_clicked : bool
}.

Inductive element : Type :=
| Subheader (text : string)
| Write (text : string)
| Caption (text : string)
| Markdown (text : string)
| TextInput (label value : string)
| Button (label : string)
| Success (text : string).

(** How a run ends: at the end of the script, by [st.experimental_rerun()],
    or by an exception. *)
Inductive outcome : Type :=
| Done
| Rerun
| Failed (e : exn).

(** [l[i] = x], which raises [IndexError] out of range. *)
Fixpoint list_set {A : Type} (l : list A) (i : nat) (x : A) : result (list A) :=
  match l, i with
  | [], _ => Raise IndexError
  | _ :: t, O => Ok (x :: t)
  | a :: t, S j =>
      match list_set t j x with
      | Ok t' => Ok (a :: t')
      | Raise e => Raise e
      end
  end.

Definition number (idx : nat) : string := str_of_int (Z.of_nat idx + 1).

(** [for idx, qa in enumerate(quiz)]: the question and its answer box. *)
Fixpoint answer_loop (w : widgets) (idx : nat) (qs : list quiz_item)
    (answers : list string) (out : list element)
    : list string * list element * option exn :=
  match qs with
  | [] => (answers, out, None)
  | qa :: rest =>
      let out :=
        (out ++ [Markdown ("**Q" ++ number idx ++ ". " ++ question qa ++ "**")])%list in
      match list_get answers idx with
      | Raise e => (answers, out, Some e)
      | Ok value =>
          let typed := answer_input w idx value in
          let out :=
            (out ++ [TextInput ("Your answer to Q" ++ number idx) typed])%list in
          match list_set answers idx typed with
          | Raise e => (answers, out, Some e)
          | Ok answers' => answer_loop w (S idx) rest answers' out
          end
      end
  end.

(** [for idx, fb in enumerate(feedback)] *)
Fixpoint feedback_lines (idx : nat) (fbs : list string) : list element :=
  match fbs with
  | [] => []
  | fb :: rest =>
      Markdown ("**Q" ++ number idx ++ ":** " ++ fb) :: feedback_lines (S idx) rest
  end.

Definition results (s : session_state) : list element :=
  match score s with
  | Some sc =>
      let total := List.length (quiz s) in
      [Subheader "Results";
       Success ("Score: " ++ str_of_int sc ++ " / " ++ str_of_int (Z.of_nat total))]
      ++ feedback_lines 0 (feedback s)
  | None => []
  end%list.

Section Script.

Variable json_loads : string -> result pyobj.
Variable py_repr : pyobj -> string.
Variable getenv : string -> option string.
Variable chat_completions_create :
  string -> string -> list message -> Z -> result string.
(** [st.experimental_rerun()]: [None] when the call stops the run and asks
    for a rerun, [Some e] when the call raises [e] instead, as on the
    Streamlit releases that no longer have the attribute. *)
Variable experimental_rerun : option exn.

(** [if generate_clicked and topic_input.strip(): ...] *)
Definition generate_stage (w : widgets) (s : session_state)
    : session_state * option exn :=
  if generate_clicked w && negb (is_empty (strip (topic_input w))) then
    let s := reset_quiz_state s in
    let s := set_topic (strip (topic_input w)) s in
    match generate_explanation getenv chat_completions_create (topic s) with
    | Raise e => (s, Some e)
    | Ok text =>
        let s := set_explanation text s in
        match generate_quiz json_loads py_repr getenv chat_completions_create
                (topic s) None with
        | Raise e => (s, Some e)
        | Ok items =>
            let s := set_quiz items s in
            (set_user_answers (map (fun _ => "") (quiz s)) s, None)
        end
    end
  else (s, None).

(** [if st.session_state.quiz: ...] *)
Definition quiz_stage (w : widgets) (s : session_state) (out : list element)
    : session_state * list element * option exn :=
  match quiz s with
  | [] => (s, out, None)
  | _ :: _ =>
      let out :=
        (out ++ [Subheader "Quiz";
                 Caption "Answer briefly. Spelling variations are okay; we check approximately."])%list in
      let '(answers, out, failure) := answer_loop w 0 (quiz s) (user_answers s) out in
      let s := set_user_answers answers s in
      match failure with
      | Some e => (s, out, Some e)
      | None =>
          let out := (out ++ [Button "Submit Answers"])%list in
          if submit_clicked w then
            let correct_answers := map answer (quiz s) in
            match check_answers (user_answers s) correct_answers with
            | Raise e => (s, out, Some e)
            | Ok (sc, fb) => (set_feedback fb (set_score (Some sc) s), out, None)
            end
          else (s, out, None)
      end
  end.

Definition script (w : widgets) (s : session_state)
    : session_state * list element * outcome :=
  if clear_clicked w then
    (reset_quiz_state (set_explanation "" (set_topic "" s)), [],
     match experimental_rerun with
     | None => Rerun
     | Some e => Failed e
     end)
  else
    let '(s, failure) := generate_stage w s in
    match failure with
    | Some e => (s, [], Failed e)
    | None =>
        let out :=
          if negb (is_empty (explanation s)) then
            [Subheader "Explanation"; Write (explanation s)]
          else [] in
        let '(s, out, failure) := quiz_stage w s out in
        match failure with
        | Some e => (s, out, Failed e)
        | None => (s, (out ++ results s)%list, Done)
        end
    end.

End Script.

(** The contents of the answer boxes, in question order, for boxes created
    with the values [answers]; [idx] is the number of the first box. *)
Fixpoint typed_from (w : widgets) (idx : nat) (answers : list string) : list string :=
  match answers with
  | [] => []
  | a :: rest => answer_input w idx a :: typed_from w (S idx) rest
  end.

(** The session state a run leaves when it neither clears nor generates:
    the answers are the contents of the boxes, and a click on the submit
    button of a non-empty quiz stores the result of [check_answers]. *)
Definition after_quiz (w : widgets) (s : session_state) : session_state :=
  let s1 := set_user_answers (typed_from w 0 (user_answers s)) s in
  match quiz s with
  | [] => s
  | _ :: _ =>
      if submit_clicked w then
        match check_answers (user_answers s1) (map answer (quiz s)) with
        | Ok (sc, fb) => set_feedback fb (set_score (Some sc) s1)
        | Raise _ => s1
        end
      else s1
  end.

(** A session with a one-question quiz, and widgets whose answer boxes hold
    given texts, to instantiate the statements. *)
Definition boxes (texts : list string) (idx : nat) (value : string) : string :=
  nth idx texts value.

Definition demo_widgets (texts : list string) (generate clear submit : bool)
    : widgets :=
  {| topic_input := "  France ";
     generate_clicked := generate;
     clear_clicked := clear;
     answer_input := boxes texts;
     submit_clicked := submit |}.

Definition demo_session : session_state :=
  {| quiz := [{| question := "Capital of France?"; answer := "Paris" |}];
     topic := "France";
     explanation := "France is a country in Europe.";
     user_answers := [""];
     score := None;
     feedback := [] |}.

Definition demo_reply : string :=
  json_text "{'questions': [{'question': 'Capital of France?', 'answer': 'Paris'}]}".

(** What every run keeps true of the session state. *)
Definition consistent (s : session_state) : Prop :=
  List.length (user_answers s) = List.length (quiz s)
  /\ match score s with
     | Some sc =>
         (0 <= sc <= Z.of_nat (List.length (quiz s)))%Z
         /\ List.length (feedback s) = List.length (quiz s)
     | None => feedback s = []
     end.

End Ui.

(** ** [_normalize_text] on texts of arbitrary code points

    A text is the list of its code points.  [str.isspace], [str.isalnum]
    and [str.lower] are parameters; [re] and [str.strip] classify characters
    through the first two, and [str.lower] is a function on whole texts, since
    the lower case of a character can depend on its neighbours and can be
    several characters long. *)

Module Unicode.

Definition text : Type := list N.

Definition blank : N := 32.
Definition underscore : N := 95.

Definition is_nil (s : text) : bool :=
  match s with
  | [] => true
  | _ :: _ => false
  end.

Fixpoint re_sub_runs (cls : N -> bool) (repl : text) (in_run : bool) (s : text)
    : text :=
  match s with
  | [] => []
  | c :: t =>
      if cls c then
        if in_run then re_sub_runs cls repl true t
        else (repl ++ re_sub_runs cls repl true t)%list
      else c :: re_sub_runs cls repl false t
  end.

Definition re_sub (cls : N -> bool) (repl s : text) : text :=
  re_sub_runs cls repl false s.

(** Every character of the class [cls] is a blank with no neighbour of the
    class; [prev] tells whether the character before belongs to the class. *)
Fixpoint isolated_blanks (cls : N -> bool) (prev : bool) (s : text) : bool :=
  match s with
  | [] => true
  | c :: t =>
      if cls c then negb prev && (c =? blank)%N && isolated_blanks cls true t
      else isolated_blanks cls false t
  end.

Section Text.

Variable isspace : N -> bool.
Variable isalnum : N -> bool.
Variable lower : text -> text.

(** The classes [\w], [\s] and [[\W_]]. *)
Definition re_word (c : N) : bool := isalnum c || (c =? underscore)%N.

Definition re_space (c : N) : bool := isspace c.

Definition re_nonword_or_underscore (c : N) : bool :=
  negb (re_word c) || (c =? underscore)%N.

Fixpoint lstrip (s : text) : text :=
  match s with
  | [] => []
  | c :: t => if isspace c then lstrip t else s
  end.

Fixpoint rstrip (s : text) : text :=
  match s with
  | [] => []
  | c :: t =>
      let r := rstrip t in
      if isspace c && is_nil r then [] else c :: r
  end.

Definition strip (s : text) : text := lstrip (rstrip s).

Definition _normalize_text (s : text) : text :=
  let s := strip (lower s) in
  let s := re_sub re_nonword_or_underscore [blank] s in
  let s := strip (re_sub re_space [blank] s) in
  s.

End Text.

End Unicode.

(** The classes and the lower case of the code points up to U+00FF, as an
    instance of the parameters of [Unicode]; code points beyond are given no
    class and no lower case. *)

Module Latin1.

Definition class (f : ascii -> bool) (c : N) : bool :=
  (c <? 256)%N && f (ascii_of_N c).

Definition lower_code (c : N) : N :=
  if (c <? 256)%N then N_of_ascii (lower_char (ascii_of_N c)) else c.

Definition lower_text (s : Unicode.text) : Unicode.text := map lower_code s.

Definition codes (s : string) : Unicode.text := map N_of_ascii (list_ascii_of_string s).

Definition normalize (s : Unicode.text) : Unicode.text :=
  Unicode._normalize_text (class isspace) (class isalnum) lower_text s.

End Latin1.

(** * Properties *)

Example normalize_demo1 : _normalize_text "  Hello,   World!! " = "hello world".
Proof. reflexivity. Qed.

Example normalize_demo2 : _normalize_text "snake_case" = "snake case".
Proof. reflexivity. Qed.

Example json_decode_demo : json_decode quiz_example = Ok quiz_example_value.
Proof. vm_compute. reflexivity. Qed.

Example json_decode_not_json : json_decode "not json" = Raise (ValueError "Expecting value").
Proof. vm_compute. reflexivity. Qed.

Example check_answers_demo :
  check_answers ["mitochondria!!"; "London"] ["Mitochondria"; "Paris"]
  = Ok (1%Z, ["Correct!"; "Not quite. Expected: Paris"]).
Proof. vm_compute. reflexivity. Qed.

(** ** Character facts, by enumeration of the 256 code points *)

Ltac each_char c :=
  destruct c as [[] [] [] [] [] [] [] []]; vm_compute;
  try reflexivity; try discriminate.

Lemma isspace_nonalnum (c : ascii) : isspace c = true -> isalnum c = false.
Proof. each_char c. Qed.

Lemma lower_char_idem (c : ascii) : lower_char (lower_char c) = lower_char c.
Proof. each_char c. Qed.

Lemma isspace_lower_char (c : ascii) : isspace (lower_char c) = isspace c.
Proof. each_char c. Qed.

Lemma isalnum_lower_char (c : ascii) : isalnum (lower_char c) = isalnum c.
Proof. each_char c. Qed.

Lemma nonword_or_underscore_nonalnum (c : ascii) :
  re_nonword_or_underscore c = nonalnum c.
Proof. each_char c. Qed.

Lemma underscore_nonalnum : nonalnum "_" = true.
Proof. reflexivity. Qed.

(** ** [lstrip], [rstrip] and [strip] *)

Lemma is_empty_true (s : string) : is_empty s = true -> s = "".
Proof. destruct s; simpl; congruence. Qed.

Lemma rstrip_cons (c : ascii) (t : string) :
  rstrip (String c t)
  = if isspace c && is_empty (rstrip t) then "" else String c (rstrip t).
Proof. reflexivity. Qed.

Lemma rstrip_cons_congr (c : ascii) (x y : string) :
  rstrip x = rstrip y -> rstrip (String c x) = rstrip (String c y).
Proof. intros H. rewrite !rstrip_cons, H. reflexivity. Qed.

Lemma lstrip_idem (s : string) : lstrip (lstrip s) = lstrip s.
Proof.
  induction s as [|c t IH]; simpl; [reflexivity|].
  destruct (isspace c) eqn:E; [exact IH|].
  simpl. rewrite E. reflexivity.
Qed.

Lemma rstrip_idem (s : string) : rstrip (rstrip s) = rstrip s.
Proof.
  induction s as [|c t IH]; [reflexivity|].
  rewrite rstrip_cons.
  destruct (isspace c && is_empty (rstrip t)) eqn:E; [reflexivity|].
  rewrite rstrip_cons, IH, E. reflexivity.
Qed.

Lemma lstrip_rstrip_comm (s : string) : lstrip (rstrip s) = rstrip (lstrip s).
Proof.
  induction s as [|c t IH]; [reflexivity|].
  rewrite rstrip_cons.
  destruct (isspace c) eqn:Ec; simpl; rewrite Ec.
  - destruct (is_empty (rstrip t)) eqn:Et; simpl.
    + rewrite <- IH. apply is_empty_true in Et. rewrite Et. reflexivity.
    + rewrite Ec. exact IH.
  - simpl. rewrite Ec. reflexivity.
Qed.

Lemma strip_idem (s : string) : strip (strip s) = strip s.
Proof.
  unfold strip.
  rewrite (lstrip_rstrip_comm (lstrip (rstrip s))), lstrip_idem.
  rewrite <- lstrip_rstrip_comm, rstrip_idem. reflexivity.
Qed.

Lemma lower_lstrip (s : string) : lower (lstrip s) = lstrip (lower s).
Proof.
  induction s as [|c t IH]; simpl; [reflexivity|].
  rewrite isspace_lower_char. destruct (isspace c); [exact IH|reflexivity].
Qed.

Lemma is_empty_lower (s : string) : is_empty (lower s) = is_empty s.
Proof. destruct s; reflexivity. Qed.

Lemma lower_rstrip (s : string) : lower (rstrip s) = rstrip (lower s).
Proof.
  induction s as [|c t IH]; [reflexivity|].
  simpl lower at 2. rewrite !rstrip_cons, <- IH, is_empty_lower, isspace_lower_char.
  destruct (isspace c && is_empty (rstrip t)); reflexivity.
Qed.

Lemma lower_strip (s : string) : lower (strip s) = strip (lower s).
Proof. unfold strip. rewrite lower_lstrip, lower_rstrip. reflexivity. Qed.

Lemma lower_idem (s : string) : lower (lower s) = lower s.
Proof.
  induction s as [|c t IH]; simpl; [reflexivity|].
  rewrite lower_char_idem, IH. reflexivity.
Qed.

(** ** Run replacement by one blank, for a class that contains the whitespace *)

Section Runs.

Variable cls : ascii -> bool.
Hypothesis space_in_cls : forall c, isspace c = true -> cls c = true.

Let sub := re_sub_runs cls " ".

Local Abbreviation tidy := (isolated_blanks cls).

Lemma blank_in_cls : cls " " = true.
Proof. apply space_in_cls. reflexivity. Qed.

Lemma sub_cons_in (b : bool) (c : ascii) (t : string) :
  cls c = true ->
  sub b (String c t) = if b then sub true t else String " " (sub true t).
Proof. intros H. unfold sub. simpl. rewrite H. reflexivity. Qed.

Lemma sub_cons_out (b : bool) (c : ascii) (t : string) :
  cls c = false -> sub b (String c t) = String c (sub false t).
Proof. intros H. unfold sub. simpl. rewrite H. reflexivity. Qed.

Lemma lstrip_sub_flag (b : bool) (t : string) :
  lstrip (sub b t) = lstrip (sub true t).
Proof.
  destruct b; [reflexivity|].
  destruct t as [|c t]; [reflexivity|].
  destruct (cls c) eqn:E.
  - rewrite !sub_cons_in by exact E. reflexivity.
  - rewrite !sub_cons_out by exact E. reflexivity.
Qed.

Lemma lstrip_sub_lstrip (b : bool) (t : string) :
  lstrip (sub b (lstrip t)) = lstrip (sub b t).
Proof.
  induction t as [|c t IH]; [reflexivity|].
  simpl lstrip at 2. destruct (isspace c) eqn:E; [|reflexivity].
  rewrite IH, (sub_cons_in b c t (space_in_cls c E)).
  destruct b; [reflexivity|]. simpl. apply lstrip_sub_flag.
Qed.

Lemma rstrip_sub_blank (b : bool) (t : string) :
  is_empty (rstrip t) = true -> rstrip (sub b t) = "".
Proof.
  revert b. induction t as [|c t IH]; intros b; [reflexivity|].
  rewrite rstrip_cons.
  destruct (isspace c) eqn:Ec; simpl; [|discriminate].
  destruct (is_empty (rstrip t)) eqn:Et; simpl; [intros _|discriminate].
  rewrite (sub_cons_in b c t (space_in_cls c Ec)).
  destruct b; [apply IH; reflexivity|].
  rewrite rstrip_cons, (IH true eq_refl). reflexivity.
Qed.

Lemma rstrip_sub_rstrip (b : bool) (t : string) :
  rstrip (sub b (rstrip t)) = rstrip (sub b t).
Proof.
  revert b. induction t as [|c t IH]; intros b; [reflexivity|].
  rewrite rstrip_cons.
  destruct (isspace c && is_empty (rstrip t)) eqn:E.
  - symmetry. apply rstrip_sub_blank. rewrite rstrip_cons, E. reflexivity.
  - destruct (cls c) eqn:Ec.
    + rewrite !sub_cons_in by exact Ec.
      destruct b; [apply IH|]. apply rstrip_cons_congr, IH.
    + rewrite !sub_cons_out by exact Ec. apply rstrip_cons_congr, IH.
Qed.

Lemma strip_sub_strip (t : string) :
  strip (sub false (strip t)) = strip (sub false t).
Proof.
  unfold strip.
  rewrite (lstrip_rstrip_comm (sub false _)), lstrip_sub_lstrip.
  rewrite <- lstrip_rstrip_comm, rstrip_sub_rstrip. reflexivity.
Qed.

Lemma tidy_weaken (b : bool) (s : string) : tidy b s = true -> tidy false s = true.
Proof.
  destruct s as [|c t]; [reflexivity|]. simpl.
  destruct (cls c); [|tauto].
  destruct b; simpl; [discriminate|tauto].
Qed.

Lemma tidy_sub (b : bool) (t : string) : tidy b (sub b t) = true.
Proof.
  revert b. induction t as [|c t IH]; intros b; [reflexivity|].
  destruct (cls c) eqn:E.
  - rewrite sub_cons_in by exact E.
    destruct b; [apply IH|]. simpl. rewrite blank_in_cls. simpl. apply IH.
  - rewrite sub_cons_out by exact E. simpl. rewrite E. apply IH.
Qed.

Lemma sub_tidy (b : bool) (s : string) : tidy b s = true -> sub b s = s.
Proof.
  revert b. induction s as [|c t IH]; intros b H; [reflexivity|].
  simpl in H. destruct (cls c) eqn:E.
  - apply andb_prop in H as [H Ht]. apply andb_prop in H as [Hb Hc].
    apply Ascii.eqb_eq in Hc. subst c.
    rewrite sub_cons_in by exact E.
    destruct b; [discriminate|]. rewrite (IH true Ht). reflexivity.
  - rewrite sub_cons_out by exact E. rewrite (IH false H). reflexivity.
Qed.

Lemma tidy_lstrip (b : bool) (s : string) :
  tidy b s = true -> tidy false (lstrip s) = true.
Proof.
  revert b. induction s as [|c t IH]; intros b H; [reflexivity|].
  simpl lstrip. destruct (isspace c) eqn:Ec.
  - simpl in H. rewrite (space_in_cls c Ec) in H.
    apply andb_prop in H as [_ Ht]. exact (IH true Ht).
  - exact (tidy_weaken b _ H).
Qed.

Lemma tidy_rstrip (b : bool) (s : string) :
  tidy b s = true -> tidy b (rstrip s) = true.
Proof.
  revert b. induction s as [|c t IH]; intros b H; [reflexivity|].
  rewrite rstrip_cons.
  destruct (isspace c && is_empty (rstrip t)); [reflexivity|].
  simpl in *. destruct (cls c).
  - apply andb_prop in H as [H Ht]. rewrite H, (IH true Ht). reflexivity.
  - exact (IH false H).
Qed.

Lemma tidy_strip (b : bool) (s : string) :
  tidy b s = true -> tidy false (strip s) = true.
Proof. intros H. unfold strip. exact (tidy_lstrip b _ (tidy_rstrip b _ H)). Qed.

(** In a tidy text every whitespace character is an isolated blank, so
    collapsing whitespace runs changes nothing. *)
Lemma collapse_tidy (b : bool) (s : string) :
  tidy b s = true -> re_sub_runs re_space " " b s = s.
Proof.
  revert b. induction s as [|c t IH]; intros b H; [reflexivity|].
  simpl in *. unfold re_space at 1. destruct (isspace c) eqn:Ec.
  - rewrite (space_in_cls c Ec) in H.
    apply andb_prop in H as [H Ht]. apply andb_prop in H as [Hb Hc].
    apply Ascii.eqb_eq in Hc. subst c.
    destruct b; [discriminate|]. rewrite (IH true Ht). reflexivity.
  - destruct (cls c).
    + apply andb_prop in H as [H Ht]. apply andb_prop in H as [_ Hc].
      apply Ascii.eqb_eq in Hc. subst c. discriminate.
    + rewrite (IH false H). reflexivity.
Qed.

(** A tidy text has no character of the class other than the blank. *)
Lemma tidy_no_char (b : bool) (s : string) (x : ascii) :
  cls x = true -> x <> " "%char -> tidy b s = true ->
  contains (String x "") s = false.
Proof.
  intros Hx Hn. revert b. induction s as [|c t IH]; intros b H; [reflexivity|].
  simpl in *. destruct (ascii_dec x c) as [->|_].
  - rewrite Hx in H. apply andb_prop in H as [H _]. apply andb_prop in H as [_ Hc].
    apply Ascii.eqb_eq in Hc. contradiction.
  - simpl. destruct (cls c).
    + apply andb_prop in H as [_ Ht]. exact (IH true Ht).
    + exact (IH false H).
Qed.

Hypothesis cls_lower : forall c, cls (lower_char c) = cls c.

Lemma lower_sub (b : bool) (s : string) : lower (sub b s) = sub b (lower s).
Proof.
  revert b. induction s as [|c t IH]; intros b; [reflexivity|].
  simpl lower. destruct (cls c) eqn:E.
  - rewrite !sub_cons_in by (rewrite ?cls_lower; exact E).
    destruct b; [apply IH|]. simpl. rewrite IH. reflexivity.
  - rewrite !sub_cons_out by (rewrite ?cls_lower; exact E).
    simpl. rewrite IH. reflexivity.
Qed.

End Runs.

(** ** [_normalize_text] *)

Lemma re_sub_runs_ext (cls cls' : ascii -> bool) (repl : string) (b : bool)
    (s : string) :
  (forall c, cls c = cls' c) ->
  re_sub_runs cls repl b s = re_sub_runs cls' repl b s.
Proof.
  intros E. revert b. induction s as [|c t IH]; intros b; [reflexivity|].
  simpl. rewrite <- E. destruct (cls c); destruct b; rewrite ?IH; reflexivity.
Qed.

Lemma space_is_nonalnum (c : ascii) : isspace c = true -> nonalnum c = true.
Proof. intros H. unfold nonalnum. rewrite (isspace_nonalnum c H). reflexivity. Qed.

Lemma nonalnum_lower_char (c : ascii) : nonalnum (lower_char c) = nonalnum c.
Proof. unfold nonalnum. rewrite isalnum_lower_char. reflexivity. Qed.

(** The code's two substitutions and two trims amount to one substitution
    and one trim. *)
Lemma normalize_text_short (s : string) :
  _normalize_text s = strip (re_sub nonalnum " " (lower s)).
Proof.
  unfold _normalize_text, re_sub.
  rewrite (re_sub_runs_ext _ _ " " false (strip (lower s))
             nonword_or_underscore_nonalnum).
  rewrite (collapse_tidy nonalnum space_is_nonalnum false)
    by apply (tidy_sub nonalnum space_is_nonalnum).
  apply (strip_sub_strip nonalnum space_is_nonalnum).
Qed.

Lemma normalize_text_tidy (s : string) :
  isolated_blanks nonalnum false (_normalize_text s) = true.
Proof.
  rewrite normalize_text_short.
  apply (tidy_strip nonalnum space_is_nonalnum false).
  apply (tidy_sub nonalnum space_is_nonalnum).
Qed.

Lemma normalize_text_lower (s : string) :
  lower (_normalize_text s) = _normalize_text s.
Proof.
  rewrite normalize_text_short, lower_strip. unfold re_sub.
  rewrite (lower_sub nonalnum nonalnum_lower_char), lower_idem. reflexivity.
Qed.

Lemma normalize_text_fixed (s : string) :
  isolated_blanks nonalnum false s = true -> lower s = s -> strip s = s ->
  _normalize_text s = s.
Proof.
  intros Ht Hl Hs. rewrite normalize_text_short, Hl. unfold re_sub.
  rewrite (sub_tidy nonalnum false s Ht). exact Hs.
Qed.

Lemma normalize_text_stripped (s : string) :
  strip (_normalize_text s) = _normalize_text s.
Proof. unfold _normalize_text. apply strip_idem. Qed.

(** C4 (as amended).  [_normalize_text] lowercases the text, replaces every
    maximal run of characters that are neither letters nor digits, the
    underscore among them, by one blank, collapses whitespace runs and trims
    both ends; in the result every such character is a blank standing alone,
    and no underscore is left. *)
Theorem normalize_text_spec (s : string) :
  _normalize_text s = normalize_spec s
  /\ isolated_blanks nonalnum false (_normalize_text s) = true
  /\ contains "_" (_normalize_text s) = false.
Proof.
  split; [|split].
  - rewrite normalize_text_short. unfold normalize_spec, re_sub.
    rewrite (collapse_tidy nonalnum space_is_nonalnum false)
      by apply (tidy_sub nonalnum space_is_nonalnum).
    reflexivity.
  - apply normalize_text_tidy.
  - apply (tidy_no_char nonalnum false _ "_"%char underscore_nonalnum).
    + discriminate.
    + apply normalize_text_tidy.
Qed.

(** C4, the claim as written fails: an underscore of the input is not
    preserved, and the result differs from the pipeline that counts the
    underscore as a word character. *)
Lemma normalize_text_drops_underscore :
  contains "_" "snake_case" = true
  /\ _normalize_text "snake_case" = "snake case"
  /\ normalize_keeping_underscores "snake_case" = "snake_case"
  /\ _normalize_text "snake_case" <> normalize_keeping_underscores "snake_case".
Proof. repeat split; try reflexivity. vm_compute. discriminate. Qed.

(** Idempotence on the texts of code points up to U+00FF. *)
Lemma normalize_text_idempotent (x : string) :
  _normalize_text (_normalize_text x) = _normalize_text x.
Proof.
  apply normalize_text_fixed.
  - apply normalize_text_tidy.
  - apply normalize_text_lower.
  - apply normalize_text_stripped.
Qed.

(** C6, the claim as written fails: the hyphen becomes a blank, which the
    one-word spelling does not have. *)
Lemma normalize_text_hyphen_splits :
  _normalize_text "Photo-synthesis!" <> _normalize_text "photosynthesis".
Proof. vm_compute. discriminate. Qed.

(** C6 (as amended).  ["Photo-synthesis!"] normalises to ["photo synthesis"],
    as does the two-word spelling in any case and with any punctuation;
    ["photosynthesis"] normalises to itself. *)
Theorem normalize_text_photo_synthesis :
  _normalize_text "Photo-synthesis!" = "photo synthesis"
  /\ _normalize_text "Photo-synthesis!" = _normalize_text "photo synthesis"
  /\ _normalize_text "PHOTOSYNTHESIS!" = _normalize_text "photosynthesis".
Proof. repeat split. Qed.

(** ** Containment *)

Lemma prefix_spec (p s : string) : prefix p s = true <-> exists post, s = p ++ post.
Proof.
  revert s. induction p as [|a p IH]; intros s.
  - split; [intros _; exists s; reflexivity|intros _; destruct s; reflexivity].
  - destruct s as [|b s]; simpl;
      [split; [discriminate|intros [post H]; discriminate]|].
    destruct (ascii_dec a b) as [->|Hab].
    + rewrite IH. split; intros [post H]; exists post; congruence.
    + split; [discriminate|]. intros [post H]. congruence.
Qed.

Lemma contains_unfold (needle hay : string) :
  contains needle hay
  = prefix needle hay
    || match hay with
       | EmptyString => false
       | String _ t => contains needle t
       end.
Proof. destruct hay; reflexivity. Qed.

Lemma contains_spec (needle hay : string) :
  contains needle hay = true <-> substring_of needle hay.
Proof.
  unfold substring_of. split.
  - induction hay as [|c t IH]; rewrite contains_unfold; intros H;
      apply orb_prop in H as [H|H].
    + apply prefix_spec in H as [post ->]. exists "", post. reflexivity.
    + discriminate.
    + apply prefix_spec in H as [post H]. exists "", post. exact H.
    + destruct (IH H) as (pre & post & ->). exists (String c pre), post. reflexivity.
  - intros (pre & post & ->). induction pre as [|c pre IH].
    + rewrite contains_unfold. apply orb_true_intro. left.
      apply prefix_spec. exists post. reflexivity.
    + change (contains needle (String c (pre ++ needle ++ post)) = true).
      rewrite contains_unfold, IH. apply orb_true_r.
Qed.

Lemma is_empty_false (s : string) : negb (is_empty s) = true <-> s <> "".
Proof. destruct s; simpl; split; congruence. Qed.

Lemma is_correct_spec (u c : string) :
  is_correct u c = true
  <-> u = c \/ (u <> "" /\ substring_of u c) \/ (c <> "" /\ substring_of c u).
Proof.
  unfold is_correct.
  rewrite !orb_true_iff, !andb_true_iff, String.eqb_eq, !is_empty_false, !contains_spec.
  tauto.
Qed.

Lemma is_correct_sym (u c : string) : is_correct u c = is_correct c u.
Proof.
  unfold is_correct. rewrite (String.eqb_sym u c).
  rewrite <- !orb_assoc. f_equal. apply orb_comm.
Qed.

Lemma feedback_for_affirmative (u c : string) :
  feedback_for u c = affirmative
  <-> is_correct (_normalize_text u) (_normalize_text c) = true.
Proof.
  unfold feedback_for.
  destruct (is_correct _ _); split; try reflexivity; discriminate.
Qed.

(** ** The grading loop *)

Lemma list_get_some {A : Type} (l : list A) (i : nat) (x : A) :
  nth_error l i = Some x -> list_get l i = Ok x.
Proof. intros H. unfold list_get. rewrite H. reflexivity. Qed.

Lemma grade_body_step (ua ca : list string) (score : Z) (fb : list string)
    (i : nat) (u c : string) :
  nth_error ua i = Some u -> nth_error ca i = Some c ->
  grade_body ua ca (score, fb) i
  = Ok ((score + (if correct_pair (u, c) then 1 else 0))%Z,
        (fb ++ [feedback_for u c])%list).
Proof.
  intros Hu Hc. unfold grade_body, feedback_for, correct_pair.
  rewrite (list_get_some _ _ _ Hu), (list_get_some _ _ _ Hc). simpl.
  destruct (is_correct _ _); simpl.
  - reflexivity.
  - rewrite Z.add_0_r. reflexivity.
Qed.

Lemma grade_loop (ua ca : list string) (pairs : list (string * string)) :
  forall (k : nat) (score : Z) (fb : list string),
  (forall j p, nth_error pairs j = Some p ->
     nth_error ua (k + j) = Some (fst p) /\ nth_error ca (k + j) = Some (snd p)) ->
  for_each (seq k (List.length pairs)) (grade_body ua ca) (score, fb)
  = Ok ((score + fst (graded pairs))%Z, (fb ++ snd (graded pairs))%list).
Proof.
  induction pairs as [|[u c] pairs IH]; intros k score fb H.
  - simpl. rewrite Z.add_0_r, app_nil_r. reflexivity.
  - cbn [List.length seq for_each].
    destruct (H 0 (u, c) eq_refl) as [Hu Hc]. rewrite Nat.add_0_r in Hu, Hc.
    rewrite (grade_body_step ua ca score fb k u c Hu Hc). cbn [bind].
    rewrite IH.
    + unfold graded. simpl fst. simpl snd. rewrite <- app_assoc. simpl app.
      f_equal. f_equal.
      destruct (correct_pair (u, c)); simpl List.length; lia.
    + intros j p Hj. replace (S k + j) with (k + S j) by lia. exact (H (S j) p Hj).
Qed.

Lemma nth_error_combine (ua ca : list string) :
  forall j p, nth_error (combine ua ca) j = Some p ->
  nth_error ua j = Some (fst p) /\ nth_error ca j = Some (snd p).
Proof.
  revert ca. induction ua as [|u ua IH]; intros [|c ca] [|j] p H;
    simpl in *; try discriminate.
  - injection H as <-. split; reflexivity.
  - exact (IH ca j p H).
Qed.

Lemma combine_nth_error (ua ca : list string) :
  forall j u c, nth_error ua j = Some u -> nth_error ca j = Some c ->
  nth_error (combine ua ca) j = Some (u, c).
Proof.
  revert ca. induction ua as [|u0 ua IH]; intros [|c0 ca] [|j] u c Hu Hc;
    simpl in *; try discriminate.
  - congruence.
  - exact (IH ca j u c Hu Hc).
Qed.

(** The loop of [check_answers] never raises; it grades the pairs of
    [combine user_answers correct_answers] in order. *)
Lemma check_answers_graded (ua ca : list string) :
  check_answers ua ca = Ok (graded (combine ua ca)).
Proof.
  unfold check_answers. rewrite <- length_combine.
  rewrite (grade_loop ua ca (combine ua ca) 0 0%Z []).
  - rewrite Z.add_0_l, app_nil_l. destruct (graded (combine ua ca)). reflexivity.
  - intros j p Hj. simpl. exact (nth_error_combine ua ca j p Hj).
Qed.

Lemma combine_firstn_min (ua ca : list string) :
  let total := Nat.min (List.length ua) (List.length ca) in
  combine (firstn total ua) (firstn total ca) = combine ua ca.
Proof.
  revert ca. induction ua as [|u ua IH]; intros [|c ca]; simpl; try reflexivity.
  f_equal. apply IH.
Qed.

Lemma correct_count (pairs : list (string * string)) :
  List.length (filter correct_pair pairs)
  = count_occ string_dec (map (fun p => feedback_for (fst p) (snd p)) pairs)
      affirmative
  /\ List.length (filter correct_pair pairs) <= List.length pairs.
Proof.
  induction pairs as [|[u c] pairs [IH1 IH2]]; [split; reflexivity|].
  cbn [filter map count_occ fst snd].
  pose proof (feedback_for_affirmative u c) as F.
  change (correct_pair (u, c))
    with (is_correct (_normalize_text u) (_normalize_text c)).
  destruct (string_dec (feedback_for u c) affirmative) as [E|E];
    destruct (is_correct (_normalize_text u) (_normalize_text c));
    cbn [List.length]; try (split; lia).
  - apply F in E. discriminate E.
  - exfalso. apply E, F. reflexivity.
Qed.

Lemma graded_count (pairs : list (string * string)) :
  fst (graded pairs) = Z.of_nat (count_occ string_dec (snd (graded pairs)) affirmative)
  /\ (0 <= fst (graded pairs) <= Z.of_nat (List.length pairs))%Z.
Proof.
  unfold graded. cbn [fst snd].
  destruct (correct_count pairs) as [H1 H2]. rewrite <- H1. split; lia.
Qed.

Lemma graded_nth (ua ca : list string) (i : nat) (u c : string) :
  nth_error ua i = Some u -> nth_error ca i = Some c ->
  nth_error (snd (graded (combine ua ca))) i = Some (feedback_for u c).
Proof.
  intros Hu Hc. unfold graded. cbn [snd].
  rewrite nth_error_map, (combine_nth_error ua ca i u c Hu Hc). reflexivity.
Qed.

Lemma combine_app_l (l1 l2 xs : list string) :
  List.length l1 = List.length l2 -> combine (l1 ++ xs) l2 = combine l1 l2.
Proof.
  revert l2. induction l1 as [|a l1 IH]; intros [|b l2] H; simpl in *;
    try discriminate.
  - destruct xs; reflexivity.
  - f_equal. apply IH. lia.
Qed.

Lemma combine_app_r (l1 l2 ys : list string) :
  List.length l1 = List.length l2 -> combine l1 (l2 ++ ys) = combine l1 l2.
Proof.
  revert l2. induction l1 as [|a l1 IH]; intros [|b l2] H; simpl in *;
    try discriminate.
  - reflexivity.
  - f_equal. apply IH. lia.
Qed.

(** ** [check_answers] *)

(** C1.  For an index [i] of both lists, with [u] and [c] the normalised
    answers, the entry [i] of the feedback is the affirmative message exactly
    when [u = c], or [u] is non-empty and occurs in [c], or [c] is non-empty
    and occurs in [u]; grading with the two lists exchanged gives the same
    verdict at [i]. *)
Theorem check_answers_verdict (user_answers correct_answers : list string)
    (i : nat) (u0 c0 : string) :
  nth_error user_answers i = Some u0 ->
  nth_error correct_answers i = Some c0 ->
  let u := _normalize_text u0 in
  let c := _normalize_text c0 in
  exists score fb score' fb',
    check_answers user_answers correct_answers = Ok (score, fb)
    /\ check_answers correct_answers user_answers = Ok (score', fb')
    /\ (nth_error fb i = Some affirmative
        <-> u = c \/ (u <> "" /\ substring_of u c) \/ (c <> "" /\ substring_of c u))
    /\ (nth_error fb' i = Some affirmative <-> nth_error fb i = Some affirmative).
Proof.
  intros Hu Hc u c.
  exists (fst (graded (combine user_answers correct_answers))),
         (snd (graded (combine user_answers correct_answers))),
         (fst (graded (combine correct_answers user_answers))),
         (snd (graded (combine correct_answers user_answers))).
  rewrite !check_answers_graded, <- !surjective_pairing.
  rewrite (graded_nth _ _ i u0 c0 Hu Hc), (graded_nth _ _ i c0 u0 Hc Hu).
  assert (E : forall a b, Some (feedback_for a b) = Some affirmative
                          <-> is_correct (_normalize_text a) (_normalize_text b) = true).
  { intros a b. rewrite <- feedback_for_affirmative. split; congruence. }
  rewrite !E. fold u c. repeat split; try reflexivity.
  - apply is_correct_spec.
  - apply is_correct_spec.
  - rewrite is_correct_sym. tauto.
  - rewrite is_correct_sym. tauto.
Qed.

Lemma check_answers_verdict_witness :
  exists score fb score' fb',
    check_answers ["cell wall"] ["cell"] = Ok (score, fb)
    /\ check_answers ["cell"] ["cell wall"] = Ok (score', fb')
    /\ (nth_error fb 0 = Some affirmative
        <-> _normalize_text "cell wall" = _normalize_text "cell"
            \/ (_normalize_text "cell wall" <> ""
                /\ substring_of (_normalize_text "cell wall") (_normalize_text "cell"))
            \/ (_normalize_text "cell" <> ""
                /\ substring_of (_normalize_text "cell") (_normalize_text "cell wall")))
    /\ (nth_error fb' 0 = Some affirmative <-> nth_error fb 0 = Some affirmative).
Proof.
  apply (check_answers_verdict ["cell wall"] ["cell"] 0 "cell wall" "cell");
    reflexivity.
Defined.

(** C2.  [check_answers] never raises and grades the shared prefix of length
    [total = min (len user_answers) (len correct_answers)]: the feedback has
    [total] entries, entry [i] being the message for the answers at index
    [i]; the score counts the correct pairs of the prefix; whatever follows
    the prefix in either list changes nothing; an empty list on either side
    gives [(0, [])]. *)
Theorem check_answers_shared_prefix (user_answers correct_answers : list string) :
  let total := Nat.min (List.length user_answers) (List.length correct_answers) in
  let ua := firstn total user_answers in
  let ca := firstn total correct_answers in
  exists score fb,
    check_answers user_answers correct_answers = Ok (score, fb)
    /\ List.length fb = total
    /\ (forall i, i < total ->
          nth_error fb i
          = Some (feedback_for (nth i user_answers "") (nth i correct_answers "")))
    /\ score = Z.of_nat (List.length (filter correct_pair (combine ua ca)))
    /\ (forall extra, check_answers (ua ++ extra) ca = Ok (score, fb))
    /\ (forall extra, check_answers ua (ca ++ extra) = Ok (score, fb))
    /\ check_answers [] correct_answers = Ok (0%Z, [])
    /\ check_answers user_answers [] = Ok (0%Z, []).
Proof.
  intros total ua ca.
  exists (fst (graded (combine user_answers correct_answers))),
         (snd (graded (combine user_answers correct_answers))).
  assert (Hlen : List.length ua = List.length ca).
  { unfold ua, ca. rewrite !length_firstn. unfold total. lia. }
  assert (Hcomb : combine ua ca = combine user_answers correct_answers)
    by apply combine_firstn_min.
  rewrite !check_answers_graded, <- surjective_pairing.
  split; [reflexivity|]. split.
  { unfold graded. cbn [snd]. rewrite length_map, length_combine. reflexivity. }
  split.
  { intros i Hi. apply graded_nth; apply nth_error_nth'; unfold total in Hi; lia. }
  split.
  { rewrite Hcomb. reflexivity. }
  split.
  { intros extra. rewrite check_answers_graded, combine_app_l, Hcomb by exact Hlen.
    reflexivity. }
  split.
  { intros extra. rewrite check_answers_graded, combine_app_r, Hcomb by exact Hlen.
    reflexivity. }
  split.
  - reflexivity.
  - destruct user_answers; reflexivity.
Qed.

(** C3.  The entry for a correct item is ["Correct!"]; the entry for an
    incorrect item is ["Not quite. Expected: "] followed by the correct answer
    as it was given, which is not that text with the normalised answer
    whenever the two differ; the Mitochondria/Paris scenario gives score 1 and
    the two messages of the specification. *)
Theorem check_answers_feedback (user_answers correct_answers : list string)
    (i : nat) (u0 c0 : string) :
  nth_error user_answers i = Some u0 ->
  nth_error correct_answers i = Some c0 ->
  exists score fb,
    check_answers user_answers correct_answers = Ok (score, fb)
    /\ (is_correct (_normalize_text u0) (_normalize_text c0) = true ->
        nth_error fb i = Some "Correct!")
    /\ (is_correct (_normalize_text u0) (_normalize_text c0) = false ->
        nth_error fb i = Some ("Not quite. Expected: " ++ c0)
        /\ (_normalize_text c0 <> c0 ->
            nth_error fb i <> Some ("Not quite. Expected: " ++ _normalize_text c0)))
    /\ check_answers ["mitochondria!!"; "London"] ["Mitochondria"; "Paris"]
       = Ok (1%Z, ["Correct!"; "Not quite. Expected: Paris"]).
Proof.
  intros Hu Hc.
  exists (fst (graded (combine user_answers correct_answers))),
         (snd (graded (combine user_answers correct_answers))).
  rewrite check_answers_graded, <- surjective_pairing.
  rewrite (graded_nth _ _ i u0 c0 Hu Hc). unfold feedback_for.
  split; [reflexivity|]. split; [|split].
  - intros ->. reflexivity.
  - intros ->. split; [reflexivity|].
    intros Hn H. injection H as H. congruence.
  - vm_compute. reflexivity.
Qed.

Lemma check_answers_feedback_witness :
  exists score fb,
    check_answers ["mitochondria!!"; "London"] ["Mitochondria"; "Paris"]
    = Ok (score, fb)
    /\ (is_correct (_normalize_text "London") (_normalize_text "Paris") = true ->
        nth_error fb 1 = Some "Correct!")
    /\ (is_correct (_normalize_text "London") (_normalize_text "Paris") = false ->
        nth_error fb 1 = Some ("Not quite. Expected: " ++ "Paris")
        /\ (_normalize_text "Paris" <> "Paris" ->
            nth_error fb 1 <> Some ("Not quite. Expected: " ++ _normalize_text "Paris")))
    /\ check_answers ["mitochondria!!"; "London"] ["Mitochondria"; "Paris"]
       = Ok (1%Z, ["Correct!"; "Not quite. Expected: Paris"]).
Proof.
  apply (check_answers_feedback ["mitochondria!!"; "London"] ["Mitochondria"; "Paris"]
           1 "London" "Paris"); reflexivity.
Defined.

(** C10.  The score lies between 0 and the length of the shorter list, and
    equals the number of feedback entries that are ["Correct!"]. *)
Theorem check_answers_score_bounds (user_answers correct_answers : list string) :
  exists score fb,
    check_answers user_answers correct_answers = Ok (score, fb)
    /\ (0 <= score
        <= Z.of_nat (Nat.min (List.length user_answers) (List.length correct_answers)))%Z
    /\ score = Z.of_nat (count_occ string_dec fb "Correct!").
Proof.
  exists (fst (graded (combine user_answers correct_answers))),
         (snd (graded (combine user_answers correct_answers))).
  rewrite check_answers_graded, <- surjective_pairing.
  destruct (graded_count (combine user_answers correct_answers)) as [H1 H2].
  rewrite length_combine in H2.
  split; [reflexivity|]. split; [exact H2|exact H1].
Qed.

(** ** [_parse_quiz_json] and [generate_quiz] *)

Section AppFacts.

Variable json_loads : string -> result pyobj.
Variable py_repr : pyobj -> string.
Variable getenv : string -> option string.
Variable chat_completions_create :
  string -> string -> list message -> Z -> result string.

Lemma parse_item_kept (normalized : list quiz_item) (item : pyobj) :
  parse_item py_repr normalized item = (normalized ++ kept_item py_repr item)%list.
Proof.
  destruct item; simpl; rewrite ?app_nil_r; try reflexivity.
  unfold field_text.
  destruct (is_empty (strip (py_str py_repr (dict_get kvs "question" (PyStr "")))));
    destruct (is_empty (strip (py_str py_repr (dict_get kvs "answer" (PyStr "")))));
    simpl; rewrite ?app_nil_r; reflexivity.
Qed.

Lemma parse_loop (items : list pyobj) :
  forall normalized,
  fold_left (parse_item py_repr) items normalized
  = (normalized ++ flat_map (kept_item py_repr) items)%list.
Proof.
  induction items as [|item items IH]; intros normalized; simpl.
  - rewrite app_nil_r. reflexivity.
  - rewrite IH, parse_item_kept, <- app_assoc. reflexivity.
Qed.

Lemma parse_quiz_json_loaded (text : string) (data : pyobj) :
  json_loads text = Ok data ->
  _parse_quiz_json json_loads py_repr text = Ok (parse_quiz_spec py_repr data).
Proof.
  intros H. unfold _parse_quiz_json, parse_quiz_spec. rewrite H. simpl bind.
  destruct data as [| | | | |items|kvs]; try reflexivity.
  - simpl. rewrite parse_loop. reflexivity.
  - simpl. destruct (dict_lookup "questions" kvs) as [[| | | | |items|]|];
      try reflexivity.
    simpl. rewrite parse_loop. reflexivity.
Qed.

Lemma parse_quiz_json_total (text : string) :
  exists items, _parse_quiz_json json_loads py_repr text = Ok items.
Proof.
  unfold _parse_quiz_json.
  destruct (bind (json_loads text) _) as [items|e]; simpl; eauto.
Qed.

(** C7.  When [json.loads] raises on the text, [_parse_quiz_json] returns the
    empty list; and it returns a list, never an exception, on every text. *)
Theorem parse_quiz_json_invalid (text : string) (e : exn) :
  json_loads text = Raise e ->
  _parse_quiz_json json_loads py_repr text = Ok []
  /\ forall other, exists items, _parse_quiz_json json_loads py_repr other = Ok items.
Proof.
  intros H. split.
  - unfold _parse_quiz_json. rewrite H. reflexivity.
  - apply parse_quiz_json_total.
Qed.

(** C8.  When [json.loads] returns [data], the result lists, in source
    order, the items of [item_source data] that are records with non-empty
    trimmed [question] and [answer] texts; when [data] is the value of the
    specification's example, the result is the single item for Q1/A1. *)
Theorem parse_quiz_json_items (text : string) (data : pyobj) :
  json_loads text = Ok data ->
  _parse_quiz_json json_loads py_repr text = Ok (parse_quiz_spec py_repr data)
  /\ (data = quiz_example_value ->
      _parse_quiz_json json_loads py_repr text
      = Ok [{| question := "Q1"; answer := "A1" |}]).
Proof.
  intros H. split.
  - exact (parse_quiz_json_loaded text data H).
  - intros ->. rewrite (parse_quiz_json_loaded _ _ H). reflexivity.
Qed.

Lemma bind_ok {A : Type} (m : result A) : (x <- m ;; Ok x) = m.
Proof. destruct m; reflexivity. Qed.

Lemma str_of_int_digit (n : Z) :
  (3 <= n <= 5)%Z ->
  (n = 3%Z /\ str_of_int n = "3") \/ (n = 4%Z /\ str_of_int n = "4")
  \/ (n = 5%Z /\ str_of_int n = "5").
Proof.
  intros H.
  assert (C : n = 3%Z \/ n = 4%Z \/ n = 5%Z) by lia.
  destruct C as [ -> | [ -> | -> ] ]; [left|right; left|right; right]; split; reflexivity.
Qed.

(** C9.  The count written into the quiz prompt is [max 3 (min 5 count)],
    which lies in [3, 5] and is [count] itself when that lies in the range;
    a call without a count uses 4. *)
Theorem generate_quiz_count (topic : string) (count : Z) :
  let n := Z.max 3 (Z.min 5 count) in
  let parse := _parse_quiz_json json_loads py_repr in
  let chat := _call_openai_chat getenv chat_completions_create in
  (3 <= n <= 5)%Z
  /\ ((3 <= count <= 5)%Z -> n = count)
  /\ ((n = 3%Z /\ str_of_int n = "3") \/ (n = 4%Z /\ str_of_int n = "4")
      \/ (n = 5%Z /\ str_of_int n = "5"))
  /\ generate_quiz json_loads py_repr getenv chat_completions_create topic (Some count)
     = (raw <- chat (quiz_messages (strip topic) n) 500%Z ;; parse raw)
  /\ generate_quiz json_loads py_repr getenv chat_completions_create topic None
     = (raw <- chat (quiz_messages (strip topic) 4%Z) 500%Z ;; parse raw).
Proof.
  intros n parse chat.
  assert (Hn : (3 <= n <= 5)%Z) by (unfold n; lia).
  split; [exact Hn|]. split; [unfold n; lia|]. split; [exact (str_of_int_digit n Hn)|].
  unfold generate_quiz. split.
  - fold n chat parse.
    destruct (chat _ _) as [raw|e]; simpl; [apply bind_ok|reflexivity].
  - fold chat parse.
    destruct (chat _ _) as [raw|e]; simpl; [apply bind_ok|reflexivity].
Qed.

End AppFacts.

Lemma parse_quiz_json_invalid_witness :
  _parse_quiz_json json_decode repr_scalar "not json" = Ok []
  /\ forall other, exists items, _parse_quiz_json json_decode repr_scalar other = Ok items.
Proof.
  apply (parse_quiz_json_invalid json_decode repr_scalar "not json"
           (ValueError "Expecting value")).
  vm_compute. reflexivity.
Defined.

Lemma parse_quiz_json_items_witness :
  _parse_quiz_json json_decode repr_scalar quiz_example
  = Ok [{| question := "Q1"; answer := "A1" |}].
Proof.
  refine (proj2 (parse_quiz_json_items json_decode repr_scalar quiz_example
                   quiz_example_value _) eq_refl).
  vm_compute. reflexivity.
Defined.

(** * Further properties of the code *)

(** ** Grading *)

Lemma is_correct_refl (u : string) : is_correct u u = true.
Proof. unfold is_correct. rewrite String.eqb_refl. reflexivity. Qed.

Lemma is_correct_blank (c : string) : is_correct "" c = is_empty c.
Proof. destruct c; reflexivity. Qed.

Lemma graded_self (l : list string) :
  graded (combine l l) = (Z.of_nat (List.length l), repeat affirmative (List.length l)).
Proof.
  unfold graded. induction l as [|u l IH]; [reflexivity|].
  injection IH as IH1 IH2.
  cbn [combine filter map List.length repeat fst snd].
  unfold correct_pair at 1, feedback_for at 1. cbn [fst snd].
  rewrite is_correct_refl. cbn [List.length]. rewrite IH2. f_equal. lia.
Qed.

(** X5.  Answers identical to the key are all correct: the score is the
    number of questions and every message is ["Correct!"]. *)
Theorem check_answers_same (answers : list string) :
  check_answers answers answers
  = Ok (Z.of_nat (List.length answers), repeat "Correct!" (List.length answers)).
Proof. rewrite check_answers_graded. f_equal. apply graded_self. Qed.

(** X6.  A user answer whose normalised text is empty is marked correct only
    when the normalised text of the expected answer is empty too: the empty
    text matches by equality, never by containment. *)
Theorem check_answers_blank (user_answers correct_answers : list string)
    (i : nat) (u0 c0 : string) :
  nth_error user_answers i = Some u0 ->
  nth_error correct_answers i = Some c0 ->
  _normalize_text u0 = "" ->
  exists score fb,
    check_answers user_answers correct_answers = Ok (score, fb)
    /\ (nth_error fb i = Some "Correct!" <-> _normalize_text c0 = "").
Proof.
  intros Hu Hc Hb.
  exists (fst (graded (combine user_answers correct_answers))),
         (snd (graded (combine user_answers correct_answers))).
  rewrite check_answers_graded, <- surjective_pairing.
  split; [reflexivity|].
  rewrite (graded_nth _ _ i u0 c0 Hu Hc).
  assert (E : feedback_for u0 c0 = affirmative <-> _normalize_text c0 = "").
  { rewrite feedback_for_affirmative, Hb, is_correct_blank.
    destruct (_normalize_text c0); simpl; split; congruence. }
  rewrite <- E. unfold affirmative. split; congruence.
Qed.

Lemma check_answers_blank_witness :
  exists score fb,
    check_answers ["?!"; "  "] ["Paris"; "..."] = Ok (score, fb)
    /\ (nth_error fb 0 = Some "Correct!" <-> _normalize_text "Paris" = "").
Proof.
  apply (check_answers_blank ["?!"; "  "] ["Paris"; "..."] 0 "?!" "Paris");
    reflexivity.
Defined.

Lemma graded_cons (u c : string) (pairs : list (string * string)) :
  graded ((u, c) :: pairs)
  = ((if is_correct (_normalize_text u) (_normalize_text c) then 1 else 0)
     + fst (graded pairs),
     feedback_for u c :: snd (graded pairs))%Z.
Proof.
  unfold graded. cbn [filter map fst snd].
  change (correct_pair (u, c))
    with (is_correct (_normalize_text u) (_normalize_text c)).
  destruct (is_correct _ _); cbn [List.length]; f_equal; lia.
Qed.

Lemma graded_user_normalized (ua ua' ca : list string) :
  map _normalize_text ua = map _normalize_text ua' ->
  graded (combine ua ca) = graded (combine ua' ca).
Proof.
  revert ua' ca. induction ua as [|u ua IH]; intros [|u' ua'] ca H;
    try discriminate; [reflexivity|].
  injection H as Hu H. destruct ca as [|c ca]; [reflexivity|].
  cbn [combine]. rewrite !graded_cons, (IH ua' ca H).
  unfold feedback_for. rewrite Hu. reflexivity.
Qed.

Lemma verdicts_normalized (ua ua' ca ca' : list string) :
  map _normalize_text ua = map _normalize_text ua' ->
  map _normalize_text ca = map _normalize_text ca' ->
  fst (graded (combine ua ca)) = fst (graded (combine ua' ca'))
  /\ map (String.eqb affirmative) (snd (graded (combine ua ca)))
     = map (String.eqb affirmative) (snd (graded (combine ua' ca'))).
Proof.
  revert ua' ca ca'. induction ua as [|u ua IH]; intros [|u' ua'] ca ca' Hu Hc;
    try discriminate; [split; reflexivity|].
  injection Hu as Hu Hua.
  destruct ca as [|c ca]; destruct ca' as [|c' ca']; try discriminate;
    [split; reflexivity|].
  injection Hc as Hc Hca. cbn [combine]. rewrite !graded_cons. cbn [fst snd map].
  destruct (IH ua' ca ca' Hua Hca) as [H1 H2]. rewrite H1, H2.
  unfold feedback_for. rewrite Hu, Hc.
  destruct (is_correct _ _); split; reflexivity.
Qed.

(** X7.  Grading sees the answers only through their normalised forms: user
    answers with the same normalisations give the same result, and if the
    keys also agree up to normalisation the score and the positions of
    ["Correct!"] are the same. *)
Theorem check_answers_normalized (ua ua' ca ca' : list string) :
  map _normalize_text ua = map _normalize_text ua' ->
  map _normalize_text ca = map _normalize_text ca' ->
  check_answers ua ca = check_answers ua' ca
  /\ exists score fb fb',
       check_answers ua ca = Ok (score, fb)
       /\ check_answers ua' ca' = Ok (score, fb')
       /\ map (String.eqb "Correct!") fb = map (String.eqb "Correct!") fb'.
Proof.
  intros Hu Hc. rewrite !check_answers_graded. split.
  - f_equal. exact (graded_user_normalized ua ua' ca Hu).
  - destruct (verdicts_normalized ua ua' ca ca' Hu Hc) as [H1 H2].
    exists (fst (graded (combine ua ca))), (snd (graded (combine ua ca))),
           (snd (graded (combine ua' ca'))).
    rewrite H1 at 2. rewrite <- !surjective_pairing.
    repeat split. exact H2.
Qed.

Lemma check_answers_normalized_witness :
  check_answers ["PARIS!"] ["Paris"] = check_answers ["paris"] ["Paris"]
  /\ exists score fb fb',
       check_answers ["PARIS!"] ["Paris"] = Ok (score, fb)
       /\ check_answers ["paris"] ["  paris. "] = Ok (score, fb')
       /\ map (String.eqb "Correct!") fb = map (String.eqb "Correct!") fb'.
Proof.
  apply (check_answers_normalized ["PARIS!"] ["paris"] ["Paris"] ["  paris. "]);
    reflexivity.
Defined.

Lemma combine_app_same (a1 a2 b1 b2 : list string) :
  List.length a1 = List.length b1 ->
  combine (a1 ++ a2) (b1 ++ b2) = (combine a1 b1 ++ combine a2 b2)%list.
Proof.
  revert b1. induction a1 as [|a a1 IH]; intros [|b b1] H; simpl in *;
    try discriminate; [reflexivity|].
  f_equal. apply IH. lia.
Qed.

Lemma graded_app (l1 l2 : list (string * string)) :
  graded (l1 ++ l2)
  = ((fst (graded l1) + fst (graded l2))%Z, (snd (graded l1) ++ snd (graded l2))%list).
Proof.
  unfold graded. cbn [fst snd].
  rewrite filter_app, length_app, map_app. f_equal. lia.
Qed.

(** X8.  Grading two quizzes one after the other is grading them together:
    when the first lists have equal lengths, the scores add up and the
    feedback lists are concatenated. *)
Theorem check_answers_app (ua1 ua2 ca1 ca2 : list string) :
  List.length ua1 = List.length ca1 ->
  exists s1 f1 s2 f2,
    check_answers ua1 ca1 = Ok (s1, f1)
    /\ check_answers ua2 ca2 = Ok (s2, f2)
    /\ check_answers (ua1 ++ ua2) (ca1 ++ ca2) = Ok ((s1 + s2)%Z, (f1 ++ f2)%list).
Proof.
  intros H.
  exists (fst (graded (combine ua1 ca1))), (snd (graded (combine ua1 ca1))),
         (fst (graded (combine ua2 ca2))), (snd (graded (combine ua2 ca2))).
  rewrite !check_answers_graded, <- !surjective_pairing.
  rewrite (combine_app_same ua1 ua2 ca1 ca2 H), graded_app.
  repeat split.
Qed.

Lemma check_answers_app_witness :
  exists s1 f1 s2 f2,
    check_answers ["a"] ["A"] = Ok (s1, f1)
    /\ check_answers ["b"; "x"] ["c"] = Ok (s2, f2)
    /\ check_answers (["a"] ++ ["b"; "x"]) (["A"] ++ ["c"])
       = Ok ((s1 + s2)%Z, (f1 ++ f2)%list).
Proof. apply (check_answers_app ["a"] ["b"; "x"] ["A"] ["c"]). reflexivity. Defined.

(** ** The quiz parser *)

Section ParserFacts.

Variable json_loads : string -> result pyobj.
Variable py_repr : pyobj -> string.

Lemma kept_item_well_formed (e : pyobj) :
  Forall well_formed_item (kept_item py_repr e).
Proof.
  destruct e; simpl; try constructor.
  destruct (is_empty (field_text py_repr kvs "question")) eqn:Eq; simpl;
    [constructor|].
  destruct (is_empty (field_text py_repr kvs "answer")) eqn:Ea; simpl;
    constructor; [|constructor].
  unfold well_formed_item. cbn [question answer].
  repeat split.
  - intros H. rewrite H in Eq. discriminate Eq.
  - intros H. rewrite H in Ea. discriminate Ea.
  - apply strip_idem.
  - apply strip_idem.
Qed.

Lemma kept_item_length (e : pyobj) : List.length (kept_item py_repr e) <= 1.
Proof.
  destruct e; simpl; try lia.
  destruct (is_empty _ || is_empty _); simpl; lia.
Qed.

Lemma parse_quiz_spec_well_formed (data : pyobj) :
  Forall well_formed_item (parse_quiz_spec py_repr data)
  /\ List.length (parse_quiz_spec py_repr data) <= List.length (item_source data).
Proof.
  unfold parse_quiz_spec. induction (item_source data) as [|e l [IH1 IH2]];
    simpl; [split; [constructor|lia]|].
  split.
  - apply Forall_app. split; [apply kept_item_well_formed|exact IH1].
  - rewrite length_app. pose proof (kept_item_length e). lia.
Qed.

Lemma parsed_items_well_formed (text : string) (items : list quiz_item) :
  _parse_quiz_json json_loads py_repr text = Ok items ->
  Forall well_formed_item items.
Proof.
  intros H. destruct (json_loads text) as [data|e] eqn:E.
  - rewrite (parse_quiz_json_loaded json_loads py_repr text data E) in H.
    injection H as <-. apply parse_quiz_spec_well_formed.
  - unfold _parse_quiz_json in H. rewrite E in H. injection H as <-. constructor.
Qed.

(** X9.  Every item the parser returns has a non-empty question and a
    non-empty answer, both without surrounding whitespace, and the parser
    returns no more items than the decoded source list has elements. *)
Theorem parse_quiz_json_well_formed (text : string) (items : list quiz_item) :
  _parse_quiz_json json_loads py_repr text = Ok items ->
  Forall well_formed_item items
  /\ forall data, json_loads text = Ok data ->
       List.length items <= List.length (item_source data).
Proof.
  intros H. split; [exact (parsed_items_well_formed text items H)|].
  intros data E.
  rewrite (parse_quiz_json_loaded json_loads py_repr text data E) in H.
  injection H as <-. apply parse_quiz_spec_well_formed.
Qed.

(** X10.  A bare list of records and the same list under the key
    [questions] of an object parse to the same items. *)
Theorem parse_quiz_json_bare_list (bare wrapped : string)
    (items : list pyobj) (kvs : list (string * pyobj)) :
  json_loads bare = Ok (PyList items) ->
  json_loads wrapped = Ok (PyDict kvs) ->
  dict_lookup "questions" kvs = Some (PyList items) ->
  _parse_quiz_json json_loads py_repr bare
  = _parse_quiz_json json_loads py_repr wrapped.
Proof.
  intros Hb Hw Hq.
  rewrite (parse_quiz_json_loaded json_loads py_repr bare _ Hb).
  rewrite (parse_quiz_json_loaded json_loads py_repr wrapped _ Hw).
  unfold parse_quiz_spec, item_source. rewrite Hq. reflexivity.
Qed.

Lemma kept_item_record (it : quiz_item) :
  well_formed_item it -> kept_item py_repr (item_record it) = [it].
Proof.
  intros (Hq & Ha & Sq & Sa). destruct it as [q a]. cbn [question answer] in *.
  unfold item_record, kept_item, field_text. cbn [question answer].
  change (dict_get [("question", PyStr q); ("answer", PyStr a)] "question" (PyStr ""))
    with (PyStr q).
  change (dict_get [("question", PyStr q); ("answer", PyStr a)] "answer" (PyStr ""))
    with (PyStr a).
  cbn [py_str]. rewrite Sq, Sa.
  destruct q; [contradiction|]. destruct a; [contradiction|]. reflexivity.
Qed.

(** X11.  Round trip: a list of well-formed items, written as records with
    the keys [question] and [answer], parses back to the same items. *)
Theorem parse_quiz_json_round_trip (text : string) (items : list quiz_item) :
  Forall well_formed_item items ->
  json_loads text = Ok (PyList (map item_record items)) ->
  _parse_quiz_json json_loads py_repr text = Ok items.
Proof.
  intros Hwf H.
  rewrite (parse_quiz_json_loaded json_loads py_repr text _ H). f_equal.
  unfold parse_quiz_spec. cbn [item_source]. clear H.
  induction Hwf as [|it l Hit _ IH]; [reflexivity|].
  cbn [map flat_map]. rewrite (kept_item_record it Hit), IH. reflexivity.
Qed.

(** X12.  A record that lacks the key [question] or the key [answer], and
    any element that is not a record, is dropped: the result is the one for
    the list without it. *)
Theorem parse_quiz_json_drops (text rest : string) (pre post : list pyobj)
    (e : pyobj) :
  json_loads text = Ok (PyList (pre ++ e :: post)) ->
  json_loads rest = Ok (PyList (pre ++ post)) ->
  match e with
  | PyDict kvs =>
      dict_lookup "question" kvs = None \/ dict_lookup "answer" kvs = None
  | _ => True
  end ->
  _parse_quiz_json json_loads py_repr text
  = _parse_quiz_json json_loads py_repr rest.
Proof.
  intros Ht Hr He.
  rewrite (parse_quiz_json_loaded json_loads py_repr text _ Ht).
  rewrite (parse_quiz_json_loaded json_loads py_repr rest _ Hr).
  unfold parse_quiz_spec. cbn [item_source]. rewrite !flat_map_app.
  cbn [flat_map]. replace (kept_item py_repr e) with (@nil quiz_item);
    [reflexivity|].
  destruct e; try reflexivity.
  unfold kept_item, field_text, dict_get.
  destruct He as [-> | ->]; cbn [py_str].
  - reflexivity.
  - change (is_empty (strip "")) with true. rewrite orb_true_r. reflexivity.
Qed.

End ParserFacts.

Lemma parse_quiz_json_well_formed_witness :
  Forall well_formed_item [{| question := "Q1"; answer := "A1" |}]
  /\ forall data, json_decode quiz_example = Ok data ->
       List.length [{| question := "Q1"; answer := "A1" |}]
       <= List.length (item_source data).
Proof.
  apply (parse_quiz_json_well_formed json_decode repr_scalar quiz_example).
  vm_compute. reflexivity.
Defined.

Lemma parse_quiz_json_bare_list_witness :
  _parse_quiz_json json_decode repr_scalar
    (json_text "[{'question': 'Q', 'answer': 'A'}, 7]")
  = _parse_quiz_json json_decode repr_scalar
      (json_text "{'n': 2, 'questions': [{'question': 'Q', 'answer': 'A'}, 7]}").
Proof.
  apply (parse_quiz_json_bare_list json_decode repr_scalar _ _
           [PyDict [("question", PyStr "Q"); ("answer", PyStr "A")]; PyInt 7]
           [("n", PyInt 2);
            ("questions",
             PyList [PyDict [("question", PyStr "Q"); ("answer", PyStr "A")];
                     PyInt 7])]);
    vm_compute; reflexivity.
Defined.

Lemma parse_quiz_json_round_trip_witness :
  _parse_quiz_json json_decode repr_scalar
    (json_text "[{'question': 'Q1', 'answer': 'A 1'}, {'question': 'Q2', 'answer': 'A2'}]")
  = Ok [{| question := "Q1"; answer := "A 1" |};
        {| question := "Q2"; answer := "A2" |}].
Proof.
  apply (parse_quiz_json_round_trip json_decode repr_scalar).
  - repeat constructor; discriminate.
  - vm_compute. reflexivity.
Defined.

Lemma parse_quiz_json_drops_witness :
  _parse_quiz_json json_decode repr_scalar
    (json_text "[{'question': 'Q1', 'answer': 'A1'}, {'question': 'Q2'}]")
  = _parse_quiz_json json_decode repr_scalar
      (json_text "[{'question': 'Q1', 'answer': 'A1'}]").
Proof.
  apply (parse_quiz_json_drops json_decode repr_scalar _ _
           [PyDict [("question", PyStr "Q1"); ("answer", PyStr "A1")]] []
           (PyDict [("question", PyStr "Q2")])).
  - vm_compute. reflexivity.
  - vm_compute. reflexivity.
  - right. reflexivity.
Defined.

(** ** The completion client and the two generators *)

Definition missing_key_message : string :=
  "OPENAI_API_KEY is not set. Please add it to your .env or environment.".

Section ClientFacts.

Variable json_loads : string -> result pyobj.
Variable py_repr : pyobj -> string.
Variable getenv : string -> option string.
Variable chat_completions_create :
  string -> string -> list message -> Z -> result string.

Local Abbreviation chat := (_call_openai_chat getenv chat_completions_create).
Local Abbreviation quiz :=
  (generate_quiz json_loads py_repr getenv chat_completions_create).
Local Abbreviation explain :=
  (generate_explanation getenv chat_completions_create).

(** X13.  Without an API key (unset or empty) the client raises the
    configuration error, and so do both generators; the completion service
    has no part in the result. *)
Theorem missing_api_key (topic : string) (count : option Z)
    (messages : list message) (max_tokens : Z) :
  getenv "OPENAI_API_KEY" = None \/ getenv "OPENAI_API_KEY" = Some "" ->
  forall service,
    _call_openai_chat getenv service messages max_tokens
    = Raise (RuntimeError missing_key_message)
    /\ generate_explanation getenv service topic
       = Raise (RuntimeError missing_key_message)
    /\ generate_quiz json_loads py_repr getenv service topic count
       = Raise (RuntimeError missing_key_message).
Proof.
  intros H service.
  unfold generate_quiz, generate_explanation, _call_openai_chat.
  destruct H as [-> | ->]; repeat split.
Qed.

(** X14.  A reply obtained from the client has no surrounding whitespace; it
    is the trimmed text the service returned for a non-empty API key and the
    model named by [OPENAI_MODEL], or ["gpt-4o-mini"] when that is unset. *)
Theorem call_openai_chat_reply (messages : list message) (max_tokens : Z)
    (reply : string) :
  chat messages max_tokens = Ok reply ->
  strip reply = reply
  /\ exists key model text,
       getenv "OPENAI_API_KEY" = Some key /\ key <> ""
       /\ (getenv "OPENAI_MODEL" = Some model
           \/ (getenv "OPENAI_MODEL" = None /\ model = "gpt-4o-mini"))
       /\ chat_completions_create key model messages max_tokens = Ok text
       /\ reply = strip text.
Proof.
  unfold _call_openai_chat. intros H.
  destruct (getenv "OPENAI_API_KEY") as [[|k0 key]|] eqn:Ek; try discriminate H.
  set (model := match getenv "OPENAI_MODEL" with
                | Some m => m
                | None => "gpt-4o-mini"
                end) in *.
  destruct (chat_completions_create (String k0 key) model messages max_tokens)
    as [text|e] eqn:Ec; [|discriminate H].
  simpl in H. injection H as <-. split; [apply strip_idem|].
  exists (String k0 key), model, text. repeat split; try assumption.
  - discriminate.
  - unfold model. destruct (getenv "OPENAI_MODEL"); [left|right; split]; reflexivity.
Qed.

(** X15.  [generate_quiz] passes on a failure of the client and absorbs a
    malformed reply: when the client raises on the quiz messages, it raises
    the same exception; when the client returns a text, it returns a list of
    well-formed items, which is empty if the text is not JSON. *)
Theorem generate_quiz_outcome (topic : string) (count : option Z) :
  let n := match count with Some n => n | None => 4%Z end in
  match chat (quiz_messages (strip topic) (Z.max 3 (Z.min 5 n))) 500%Z with
  | Raise e => quiz topic count = Raise e
  | Ok raw =>
      exists items,
        quiz topic count = Ok items
        /\ Forall well_formed_item items
        /\ (forall e, json_loads raw = Raise e -> items = [])
  end.
Proof.
  intros n.
  change (quiz topic count)
    with (raw <- chat (quiz_messages (strip topic) (Z.max 3 (Z.min 5 n))) 500%Z ;;
          items <- _parse_quiz_json json_loads py_repr raw ;; Ok items).
  destruct (chat _ _) as [raw|e]; [|reflexivity].
  cbn [bind].
  destruct (parse_quiz_json_total json_loads py_repr raw) as [items Hi].
  exists items. rewrite Hi. cbn [bind]. split; [reflexivity|]. split.
  - exact (parsed_items_well_formed json_loads py_repr raw items Hi).
  - intros e He. unfold _parse_quiz_json in Hi. rewrite He in Hi.
    injection Hi as <-. reflexivity.
Qed.

(** X16.  Requests are canonical: surrounding whitespace of the topic and a
    count outside [3, 5] make no difference to either generator. *)
Theorem generators_canonical (topic : string) (count : Z) :
  quiz topic (Some count) = quiz (strip topic) (Some (Z.max 3 (Z.min 5 count)))
  /\ explain topic = explain (strip topic).
Proof.
  unfold generate_quiz, generate_explanation. rewrite strip_idem.
  replace (Z.max 3 (Z.min 5 (Z.max 3 (Z.min 5 count))))
    with (Z.max 3 (Z.min 5 count)) by lia.
  split; reflexivity.
Qed.

End ClientFacts.

Lemma missing_api_key_witness :
  _call_openai_chat env_without_key (canned_service "hello") [] 500
  = Raise (RuntimeError missing_key_message)
  /\ generate_explanation env_without_key (canned_service "hello") "Cells"
     = Raise (RuntimeError missing_key_message)
  /\ generate_quiz json_decode repr_scalar env_without_key (canned_service "hello")
       "Cells" None
     = Raise (RuntimeError missing_key_message).
Proof.
  apply (missing_api_key json_decode repr_scalar env_without_key "Cells" None [] 500).
  left. reflexivity.
Defined.

Lemma call_openai_chat_reply_witness :
  strip "hello" = "hello"
  /\ exists key model text,
       env_with_key "sk-test" "OPENAI_API_KEY" = Some key /\ key <> ""
       /\ (env_with_key "sk-test" "OPENAI_MODEL" = Some model
           \/ (env_with_key "sk-test" "OPENAI_MODEL" = None /\ model = "gpt-4o-mini"))
       /\ canned_service "  hello " key model [] 500 = Ok text
       /\ "hello" = strip text.
Proof.
  apply (call_openai_chat_reply (env_with_key "sk-test") (canned_service "  hello ")
           [] 500 "hello").
  reflexivity.
Defined.

(** ** The page script *)

Module UiFacts.

Import Ui.

Lemma list_get_middle {A : Type} (done todo : list A) (a : A) :
  list_get (done ++ a :: todo) (List.length done) = Ok a.
Proof.
  unfold list_get. rewrite nth_error_app2 by lia.
  rewrite Nat.sub_diag. reflexivity.
Qed.

Lemma list_set_middle {A : Type} (done todo : list A) (a x : A) :
  list_set (done ++ a :: todo) (List.length done) x = Ok (done ++ x :: todo)%list.
Proof.
  induction done as [|d done IH]; [reflexivity|].
  cbn [app List.length list_set]. rewrite IH. reflexivity.
Qed.

Lemma length_typed_from (w : widgets) (idx : nat) (answers : list string) :
  List.length (typed_from w idx answers) = List.length answers.
Proof.
  revert idx. induction answers as [|a rest IH]; intros idx; simpl; [reflexivity|].
  rewrite IH. reflexivity.
Qed.

(** With one stored answer per question the loop over the questions never
    raises, and it stores the contents of the boxes. *)
Lemma answer_loop_run (w : widgets) (qs : list quiz_item) :
  forall (done todo : list string) (out : list element),
  List.length todo = List.length qs ->
  exists out',
    answer_loop w (List.length done) qs (done ++ todo) out
    = ((done ++ typed_from w (List.length done) todo)%list, out', None).
Proof.
  induction qs as [|qa qs IH]; intros done todo out H.
  - destruct todo; [|discriminate]. simpl. eauto.
  - destruct todo as [|a todo]; [discriminate|].
    cbn [answer_loop]. rewrite list_get_middle, list_set_middle.
    injection H as H.
    destruct (IH (done ++ [answer_input w (List.length done) a])%list todo
                (((out ++ [Markdown ("**Q" ++ number (List.length done) ++ ". "
                                     ++ question qa ++ "**")])
                  ++ [TextInput ("Your answer to Q" ++ number (List.length done))
                        (answer_input w (List.length done) a)])%list) H)
      as [out' E].
    rewrite length_app, Nat.add_1_r, <- app_assoc in E. cbn [app] in E.
    exists out'. rewrite E. cbn [typed_from]. rewrite <- app_assoc. reflexivity.
Qed.

Lemma length_graded (pairs : list (string * string)) :
  List.length (snd (graded pairs)) = List.length pairs.
Proof. unfold graded. apply length_map. Qed.

Lemma set_user_answers_same (s : session_state) :
  set_user_answers (user_answers s) s = s.
Proof. destruct s; reflexivity. Qed.

Lemma quiz_stage_run (w : widgets) (s : session_state) (out : list element) :
  List.length (user_answers s) = List.length (quiz s) ->
  exists out', quiz_stage w s out = (after_quiz w s, out', None).
Proof.
  intros H. unfold quiz_stage, after_quiz.
  destruct (quiz s) as [|qa qs] eqn:Eq; [eauto|].
  destruct (answer_loop_run w (qa :: qs) [] (user_answers s)
              (out ++ [Subheader "Quiz";
                       Caption "Answer briefly. Spelling variations are okay; we check approximately."])%list
              H) as [out' E].
  cbn [List.length app] in E. rewrite E. cbn [quiz set_user_answers].
  rewrite Eq. destruct (submit_clicked w); [|eauto].
  cbn [user_answers set_user_answers].
  rewrite check_answers_graded.
  destruct (graded _) as [sc fb]. eauto.
Qed.

Lemma after_quiz_fields (w : widgets) (s : session_state) :
  List.length (user_answers s) = List.length (quiz s) ->
  quiz (after_quiz w s) = quiz s
  /\ topic (after_quiz w s) = topic s
  /\ explanation (after_quiz w s) = explanation s
  /\ user_answers (after_quiz w s) = typed_from w 0 (user_answers s)
  /\ (score (after_quiz w s), feedback (after_quiz w s))
     = match quiz s with
       | [] => (score s, feedback s)
       | _ :: _ =>
           if submit_clicked w then
             (Some (fst (graded (combine (typed_from w 0 (user_answers s))
                                   (map answer (quiz s))))),
              snd (graded (combine (typed_from w 0 (user_answers s))
                             (map answer (quiz s)))))
           else (score s, feedback s)
       end.
Proof.
  intros H. unfold after_quiz.
  destruct (quiz s) as [|qa qs] eqn:Eq.
  - rewrite Eq. destruct (user_answers s); [|discriminate]. repeat split.
  - destruct (submit_clicked w).
    + cbn [user_answers set_user_answers]. rewrite check_answers_graded.
      destruct (graded _) as [sc fb]. cbn. rewrite Eq. repeat split.
    + cbn. rewrite Eq. repeat split.
Qed.

Lemma after_quiz_consistent (w : widgets) (s : session_state) :
  consistent s -> consistent (after_quiz w s).
Proof.
  intros [Hl Hs]. unfold consistent.
  destruct (after_quiz_fields w s Hl) as (Eq & _ & _ & Eu & Esf).
  rewrite Eq, Eu, length_typed_from. split; [exact Hl|].
  destruct (quiz s) as [|qa qs] eqn:Eqs.
  - injection Esf as -> ->. exact Hs.
  - destruct (submit_clicked w).
    + injection Esf as -> ->.
      pose proof (graded_count (combine (typed_from w 0 (user_answers s))
                                  (map answer (qa :: qs)))) as [_ Hb].
      rewrite length_combine, length_typed_from, length_map, Hl in Hb.
      rewrite Nat.min_id in Hb.
      assert (Hn : List.length
                     (snd (graded (combine (typed_from w 0 (user_answers s))
                                     (map answer (qa :: qs)))))
                   = List.length (qa :: qs)).
      { rewrite length_graded, length_combine, length_typed_from, length_map, Hl.
        apply Nat.min_id. }
      exact (conj Hb Hn).
    + injection Esf as -> ->. exact Hs.
Qed.

Section ScriptFacts.

Variable json_loads : string -> result pyobj.
Variable py_repr : pyobj -> string.
Variable getenv : string -> option string.
Variable chat_completions_create :
  string -> string -> list message -> Z -> result string.
Variable experimental_rerun : option exn.

Local Abbreviation run :=
  (script json_loads py_repr getenv chat_completions_create experimental_rerun).
Local Abbreviation generate :=
  (generate_stage json_loads py_repr getenv chat_completions_create).

Lemma generate_stage_skip (w : widgets) (s : session_state) :
  generate_clicked w = false -> generate w s = (s, None).
Proof. intros H. unfold generate_stage. rewrite H. reflexivity. Qed.

(** The state the generation stage leaves: the quiz and the answers have
    equal lengths and there is no score; after a failure both are empty. *)
Lemma generate_stage_cases (w : widgets) (s : session_state) :
  generate w s = (s, None)
  \/ (exists s', generate w s = (s', None)
        /\ generate_clicked w = true
        /\ List.length (user_answers s') = List.length (quiz s')
        /\ score s' = None /\ feedback s' = [])
  \/ (exists s' e, generate w s = (s', Some e)
        /\ generate_clicked w = true
        /\ quiz s' = [] /\ user_answers s' = []
        /\ score s' = None /\ feedback s' = []).
Proof.
  unfold generate_stage.
  destruct (generate_clicked w); [|left; reflexivity].
  destruct (negb (is_empty (strip (topic_input w)))); [|left; reflexivity].
  cbn [andb]. right.
  destruct (generate_explanation _ _ _) as [text|e].
  - destruct (generate_quiz _ _ _ _ _ _) as [items|e].
    + left. eexists. split; [reflexivity|]. cbn.
      rewrite length_map. repeat split.
    + right. eexists. exists e. repeat split.
  - right. eexists. exists e. repeat split.
Qed.

(** X17.  The fresh session is consistent, and every run of the script keeps
    the session consistent, whatever the widgets return and whatever the
    service does: there is one stored answer per question, and a stored score
    lies between 0 and the number of questions and comes with one feedback
    message per question. *)
Theorem script_consistent (w : widgets) (s : session_state) :
  consistent s ->
  consistent fresh /\ consistent (fst (fst (run w s))).
Proof.
  intros Hs. split; [split; reflexivity|].
  unfold script. destruct (clear_clicked w); [split; reflexivity|].
  destruct (generate_stage_cases w s)
    as [E | [(s' & E & _ & Hl & Hsc & Hf) | (s' & e & E & _ & Hq & Hu & Hsc & Hf)]];
    rewrite E.
  - destruct (quiz_stage_run w s
                (if negb (is_empty (explanation s))
                 then [Subheader "Explanation"; Write (explanation s)] else [])
                (proj1 Hs)) as [out' Eq].
    rewrite Eq. cbn [fst]. exact (after_quiz_consistent w s Hs).
  - assert (Hc : consistent s').
    { split; [exact Hl|]. rewrite Hsc. exact Hf. }
    destruct (quiz_stage_run w s'
                (if negb (is_empty (explanation s'))
                 then [Subheader "Explanation"; Write (explanation s')] else [])
                Hl) as [out' Eq].
    rewrite Eq. cbn [fst]. exact (after_quiz_consistent w s' Hc).
  - cbn [fst]. split; [rewrite Hq, Hu; reflexivity|]. rewrite Hsc. exact Hf.
Qed.

(** X18.  On a consistent session a run that does not generate never fails
    in the script itself: without Clear it reaches the end of the script, so
    the indexing of the stored answers never raises; with Clear it ends as
    the call [st.experimental_rerun()] ends, by a rerun or by the exception
    that call raises. *)
Theorem script_never_fails (w : widgets) (s : session_state) :
  consistent s ->
  generate_clicked w = false ->
  snd (run w s)
  = if clear_clicked w then
      match experimental_rerun with
      | None => Rerun
      | Some e => Failed e
      end
    else Done.
Proof.
  intros Hs Hg. unfold script. destruct (clear_clicked w); [reflexivity|].
  rewrite (generate_stage_skip w s Hg).
  destruct (quiz_stage_run w s
              (if negb (is_empty (explanation s))
               then [Subheader "Explanation"; Write (explanation s)] else [])
              (proj1 Hs)) as [out' Eq].
  rewrite Eq. reflexivity.
Qed.

(** Clear returns the session to the fresh state without drawing anything,
    and a run on the fresh session with no button clicked draws nothing and
    leaves the session fresh. *)
Lemma script_clear (w w' : widgets) (s : session_state) :
  clear_clicked w = true ->
  clear_clicked w' = false ->
  generate_clicked w' = false ->
  fst (run w s) = (fresh, []) /\ run w' fresh = (fresh, [], Done).
Proof.
  intros Hc Hc' Hg'. unfold script. rewrite Hc, Hc'.
  rewrite (generate_stage_skip w' fresh Hg'). split; reflexivity.
Qed.

(** X19.  A run on a consistent session fails only while generating or, with
    Clear, when the call [st.experimental_rerun()] raises; either way the
    failed run has drawn nothing and leaves no quiz, no answers, no score
    and no feedback behind. *)
Theorem script_failure (w : widgets) (s s' : session_state)
    (out : list element) (e : exn) :
  consistent s ->
  run w s = (s', out, Failed e) ->
  ((clear_clicked w = true /\ experimental_rerun = Some e)
   \/ (clear_clicked w = false /\ generate_clicked w = true))
  /\ out = []
  /\ quiz s' = [] /\ user_answers s' = [] /\ score s' = None /\ feedback s' = [].
Proof.
  intros Hs. unfold script. destruct (clear_clicked w).
  { destruct experimental_rerun as [e'|]; [|discriminate].
    intros H. injection H as <- <- <-. repeat split. left. split; reflexivity. }
  destruct (generate_stage_cases w s)
    as [E | [(s1 & E & _ & Hl & Hsc & Hf) | (s1 & e1 & E & Hg & Hq & Hu & Hsc & Hf)]];
    rewrite E.
  - destruct (quiz_stage_run w s
                (if negb (is_empty (explanation s))
                 then [Subheader "Explanation"; Write (explanation s)] else [])
                (proj1 Hs)) as [out' Eq].
    rewrite Eq. discriminate.
  - destruct (quiz_stage_run w s1
                (if negb (is_empty (explanation s1))
                 then [Subheader "Explanation"; Write (explanation s1)] else [])
                Hl) as [out' Eq].
    rewrite Eq. discriminate.
  - intros H. injection H as <- <- _. repeat split; try assumption.
    right. split; [reflexivity|exact Hg].
Qed.

(** X20.  Submitting a non-empty quiz grades the contents of the answer
    boxes, in question order, against the answers of the quiz: the run stores
    that score and feedback, and the page ends with the results, the line
    ["Score: score / number of questions"] followed by one line per question. *)
Theorem script_submit (w : widgets) (s : session_state) :
  consistent s ->
  clear_clicked w = false ->
  generate_clicked w = false ->
  submit_clicked w = true ->
  quiz s <> [] ->
  exists s' out sc fb,
    run w s
    = (s',
       (out ++ Subheader "Results"
            :: Success ("Score: " ++ str_of_int sc ++ " / "
                        ++ str_of_int (Z.of_nat (List.length (quiz s))))
            :: feedback_lines 0 fb)%list,
       Done)
    /\ check_answers (typed_from w 0 (user_answers s)) (map answer (quiz s))
       = Ok (sc, fb)
    /\ quiz s' = quiz s
    /\ user_answers s' = typed_from w 0 (user_answers s)
    /\ score s' = Some sc /\ feedback s' = fb.
Proof.
  intros Hs Hc Hg Hsub Hq. unfold script. rewrite Hc.
  rewrite (generate_stage_skip w s Hg).
  destruct (quiz_stage_run w s
              (if negb (is_empty (explanation s))
               then [Subheader "Explanation"; Write (explanation s)] else [])
              (proj1 Hs)) as [out' Eq].
  rewrite Eq.
  destruct (after_quiz_fields w s (proj1 Hs)) as (Eqz & _ & _ & Eu & Esf).
  destruct (quiz s) as [|qa qs] eqn:Eqs; [contradiction|].
  rewrite Hsub in Esf. cbn [fst snd] in Esf. injection Esf as Es Ef.
  exists (after_quiz w s), out',
    (fst (graded (combine (typed_from w 0 (user_answers s)) (map answer (qa :: qs))))),
    (snd (graded (combine (typed_from w 0 (user_answers s)) (map answer (qa :: qs))))).
  rewrite check_answers_graded, <- surjective_pairing.
  unfold results. rewrite Es, Ef, Eqz.
  repeat split; assumption.
Qed.

(** X21.  A successful generation installs the new quiz with the trimmed
    topic and the explanation, one answer box per question created empty, and
    no score or feedback from an earlier quiz. *)
Theorem script_generate (w : widgets) (s : session_state) (text : string)
    (items : list quiz_item) :
  clear_clicked w = false ->
  generate_clicked w = true ->
  submit_clicked w = false ->
  strip (topic_input w) <> "" ->
  generate_explanation getenv chat_completions_create (strip (topic_input w))
  = Ok text ->
  generate_quiz json_loads py_repr getenv chat_completions_create
    (strip (topic_input w)) None = Ok items ->
  exists s' out,
    run w s = (s', out, Done)
    /\ quiz s' = items
    /\ topic s' = strip (topic_input w)
    /\ explanation s' = text
    /\ user_answers s' = typed_from w 0 (map (fun _ => "") items)
    /\ score s' = None /\ feedback s' = [].
Proof.
  intros Hc Hg Hsub Ht He Hq. unfold script, generate_stage. rewrite Hc, Hg.
  apply is_empty_false in Ht. rewrite Ht. cbn [andb topic set_topic].
  rewrite He. cbn [topic set_explanation set_topic]. rewrite Hq.
  match goal with
  | |- context [quiz_stage w ?s1 ?o] =>
      destruct (quiz_stage_run w s1 o) as [out' Eq];
      [cbn; apply length_map|];
      rewrite Eq;
      destruct (after_quiz_fields w s1) as (Eqz & Et & Ee & Eu & Esf);
      [cbn; apply length_map|];
      exists (after_quiz w s1)
  end.
  rewrite Hsub in Esf. cbn in Eqz, Et, Ee, Eu, Esf.
  assert (Esf' : (score (after_quiz w
                    (set_user_answers (map (fun _ => "") items)
                       (set_quiz items (set_explanation text
                          (set_topic (strip (topic_input w)) (reset_quiz_state s)))))),
                  feedback (after_quiz w
                    (set_user_answers (map (fun _ => "") items)
                       (set_quiz items (set_explanation text
                          (set_topic (strip (topic_input w)) (reset_quiz_state s)))))))
                 = (None, [])).
  { rewrite Esf. destruct items; reflexivity. }
  injection Esf' as Es Ef.
  eexists. split; [reflexivity|].
  repeat split; assumption.
Qed.

End ScriptFacts.

Lemma demo_session_consistent : consistent demo_session.
Proof. split; reflexivity. Qed.

Lemma script_consistent_witness :
  consistent fresh
  /\ consistent
       (fst (fst (script json_decode repr_scalar (env_with_key "sk-test")
                    (canned_service demo_reply) None
                    (demo_widgets ["paris"] false false true) demo_session))).
Proof.
  apply (script_consistent json_decode repr_scalar (env_with_key "sk-test")
           (canned_service demo_reply) None).
  exact demo_session_consistent.
Defined.

Lemma script_never_fails_witness :
  snd (script json_decode repr_scalar env_without_key
         (failing_service IndexError)
         (Some (AttributeError "experimental_rerun"))
         (demo_widgets ["paris"] false true true) demo_session)
  = if clear_clicked (demo_widgets ["paris"] false true true) then
      match Some (AttributeError "experimental_rerun") with
      | None => Rerun
      | Some e => Failed e
      end
    else Done.
Proof.
  apply (script_never_fails json_decode repr_scalar env_without_key
           (failing_service IndexError)
           (Some (AttributeError "experimental_rerun"))).
  - exact demo_session_consistent.
  - reflexivity.
Defined.

Lemma script_failure_witness :
  ((clear_clicked (demo_widgets [] true false false) = true
    /\ @None exn = Some (RuntimeError missing_key_message))
   \/ (clear_clicked (demo_widgets [] true false false) = false
       /\ generate_clicked (demo_widgets [] true false false) = true))
  /\ snd (fst (script json_decode repr_scalar env_without_key
                 (canned_service demo_reply) None
                 (demo_widgets [] true false false) demo_session)) = []
  /\ quiz (fst (fst (script json_decode repr_scalar env_without_key
                       (canned_service demo_reply) None
                       (demo_widgets [] true false false) demo_session))) = []
  /\ user_answers (fst (fst (script json_decode repr_scalar env_without_key
                               (canned_service demo_reply) None
                               (demo_widgets [] true false false) demo_session))) = []
  /\ score (fst (fst (script json_decode repr_scalar env_without_key
                        (canned_service demo_reply) None
                        (demo_widgets [] true false false) demo_session))) = None
  /\ feedback (fst (fst (script json_decode repr_scalar env_without_key
                           (canned_service demo_reply) None
                           (demo_widgets [] true false false) demo_session))) = [].
Proof.
  apply (script_failure json_decode repr_scalar env_without_key
           (canned_service demo_reply) None (demo_widgets [] true false false)
           demo_session _ _ (RuntimeError missing_key_message)).
  - exact demo_session_consistent.
  - vm_compute. reflexivity.
Defined.

Lemma script_submit_witness :
  exists s' out sc fb,
    script json_decode repr_scalar env_without_key (failing_service IndexError)
      None (demo_widgets ["paris"] false false true) demo_session
    = (s',
       (out ++ Subheader "Results"
            :: Success ("Score: " ++ str_of_int sc ++ " / "
                        ++ str_of_int (Z.of_nat (List.length (quiz demo_session))))
            :: feedback_lines 0 fb)%list,
       Done)
    /\ check_answers
         (typed_from (demo_widgets ["paris"] false false true) 0
            (user_answers demo_session))
         (map answer (quiz demo_session))
       = Ok (sc, fb)
    /\ quiz s' = quiz demo_session
    /\ user_answers s'
       = typed_from (demo_widgets ["paris"] false false true) 0
           (user_answers demo_session)
    /\ score s' = Some sc /\ feedback s' = fb.
Proof.
  apply (script_submit json_decode repr_scalar env_without_key
           (failing_service IndexError) None).
  - exact demo_session_consistent.
  - reflexivity.
  - reflexivity.
  - reflexivity.
  - discriminate.
Defined.

Lemma script_generate_witness :
  exists s' out,
    script json_decode repr_scalar (env_with_key "sk-test")
      (canned_service demo_reply) None (demo_widgets ["paris"] true false false) fresh
    = (s', out, Done)
    /\ quiz s' = [{| question := "Capital of France?"; answer := "Paris" |}]
    /\ topic s' = strip (topic_input (demo_widgets ["paris"] true false false))
    /\ explanation s' = demo_reply
    /\ user_answers s'
       = typed_from (demo_widgets ["paris"] true false false) 0
           (map (fun _ => "")
              [{| question := "Capital of France?"; answer := "Paris" |}])
    /\ score s' = None /\ feedback s' = [].
Proof.
  apply (script_generate json_decode repr_scalar (env_with_key "sk-test")
           (canned_service demo_reply) None).
  - reflexivity.
  - reflexivity.
  - reflexivity.
  - vm_compute. discriminate.
  - vm_compute. reflexivity.
  - vm_compute. reflexivity.
Defined.

End UiFacts.

(** ** [_normalize_text] on texts of arbitrary code points *)

Module UnicodeFacts.

Import Unicode.

Section TextFacts.

Variable isspace : N -> bool.
Variable isalnum : N -> bool.
Variable lower : text -> text.

Local Abbreviation ls := (lstrip isspace).
Local Abbreviation rs := (rstrip isspace).
Local Abbreviation trim := (strip isspace).
Local Abbreviation sep := (re_nonword_or_underscore isalnum).
Local Abbreviation norm := (_normalize_text isspace isalnum lower).

Lemma is_nil_true (s : text) : is_nil s = true -> s = [].
Proof. destruct s; simpl; congruence. Qed.

Lemma text_rstrip_cons (c : N) (t : text) :
  rs (c :: t) = if isspace c && is_nil (rs t) then [] else c :: rs t.
Proof. reflexivity. Qed.

Lemma text_lstrip_idem (s : text) : ls (ls s) = ls s.
Proof.
  induction s as [|c t IH]; simpl; [reflexivity|].
  destruct (isspace c) eqn:E; [exact IH|].
  simpl. rewrite E. reflexivity.
Qed.

Lemma text_rstrip_idem (s : text) : rs (rs s) = rs s.
Proof.
  induction s as [|c t IH]; [reflexivity|].
  rewrite text_rstrip_cons.
  destruct (isspace c && is_nil (rs t)) eqn:E; [reflexivity|].
  rewrite text_rstrip_cons, IH, E. reflexivity.
Qed.

Lemma text_lstrip_rstrip_comm (s : text) : ls (rs s) = rs (ls s).
Proof.
  induction s as [|c t IH]; [reflexivity|].
  rewrite text_rstrip_cons.
  destruct (isspace c) eqn:Ec; simpl; rewrite Ec.
  - destruct (is_nil (rs t)) eqn:Et; simpl.
    + rewrite <- IH. apply is_nil_true in Et. rewrite Et. reflexivity.
    + rewrite Ec. exact IH.
  - simpl. rewrite Ec. reflexivity.
Qed.

Lemma text_strip_idem (s : text) : trim (trim s) = trim s.
Proof.
  unfold strip.
  rewrite (text_lstrip_rstrip_comm (ls (rs s))), text_lstrip_idem.
  rewrite <- text_lstrip_rstrip_comm, text_rstrip_idem. reflexivity.
Qed.

Lemma text_in_lstrip (c : N) (s : text) : In c (ls s) -> In c s.
Proof.
  induction s as [|a t IH]; simpl; [tauto|].
  destruct (isspace a); simpl; tauto.
Qed.

Lemma text_in_rstrip (c : N) (s : text) : In c (rs s) -> In c s.
Proof.
  induction s as [|a t IH]; [simpl; tauto|].
  rewrite text_rstrip_cons.
  destruct (isspace a && is_nil (rs t)); simpl; tauto.
Qed.

Lemma text_in_strip (c : N) (s : text) : In c (trim s) -> In c s.
Proof. intros H. apply text_in_rstrip, text_in_lstrip. exact H. Qed.

Lemma text_in_sub (cls : N -> bool) (b : bool) (c : N) (s : text) :
  In c (re_sub_runs cls [blank] b s) -> c = blank \/ In c s.
Proof.
  revert b. induction s as [|a t IH]; intros b; simpl; [tauto|].
  destruct (cls a); [destruct b|]; simpl; intros H.
  - destruct (IH true H); tauto.
  - destruct H as [H|H]; [left; congruence|]. destruct (IH true H); tauto.
  - destruct H as [H|H]; [tauto|]. destruct (IH false H); tauto.
Qed.

Lemma text_is_nil_rstrip (s : text) : is_nil (rs s) = forallb isspace s.
Proof.
  induction s as [|c t IH]; [reflexivity|].
  rewrite text_rstrip_cons. simpl forallb. rewrite <- IH.
  destruct (isspace c); destruct (is_nil (rs t)); reflexivity.
Qed.

Lemma text_is_nil_lstrip (s : text) : is_nil (ls s) = forallb isspace s.
Proof.
  induction s as [|c t IH]; [reflexivity|]. simpl.
  destruct (isspace c); [exact IH|reflexivity].
Qed.

Section Class.

Variable cls : N -> bool.
Hypothesis space_in_cls : forall c, isspace c = true -> cls c = true.
Hypothesis blank_is_space : isspace blank = true.

Local Abbreviation sub := (re_sub_runs cls [blank]).
Local Abbreviation tidy := (isolated_blanks cls).

Lemma text_blank_in_cls : cls blank = true.
Proof. apply space_in_cls, blank_is_space. Qed.

Lemma text_sub_cons_in (b : bool) (c : N) (t : text) :
  cls c = true -> sub b (c :: t) = if b then sub true t else blank :: sub true t.
Proof. intros H. simpl. rewrite H. reflexivity. Qed.

Lemma text_sub_cons_out (b : bool) (c : N) (t : text) :
  cls c = false -> sub b (c :: t) = c :: sub false t.
Proof. intros H. simpl. rewrite H. reflexivity. Qed.

Lemma text_tidy_weaken (b : bool) (s : text) : tidy b s = true -> tidy false s = true.
Proof.
  destruct s as [|c t]; [reflexivity|]. simpl.
  destruct (cls c); [|tauto].
  destruct b; simpl; [discriminate|tauto].
Qed.

Lemma text_tidy_sub (b : bool) (t : text) : tidy b (sub b t) = true.
Proof.
  revert b. induction t as [|c t IH]; intros b; [reflexivity|].
  destruct (cls c) eqn:E.
  - rewrite text_sub_cons_in by exact E.
    destruct b; [apply IH|]. simpl. rewrite text_blank_in_cls. simpl. apply IH.
  - rewrite text_sub_cons_out by exact E. simpl. rewrite E. apply IH.
Qed.

Lemma text_sub_tidy (b : bool) (s : text) : tidy b s = true -> sub b s = s.
Proof.
  revert b. induction s as [|c t IH]; intros b H; [reflexivity|].
  simpl in H. destruct (cls c) eqn:E.
  - apply andb_prop in H as [H Ht]. apply andb_prop in H as [Hb Hc].
    apply N.eqb_eq in Hc. subst c.
    rewrite text_sub_cons_in by exact E.
    destruct b; [discriminate|]. rewrite (IH true Ht). reflexivity.
  - rewrite text_sub_cons_out by exact E. rewrite (IH false H). reflexivity.
Qed.

Lemma text_tidy_lstrip (b : bool) (s : text) :
  tidy b s = true -> tidy false (ls s) = true.
Proof.
  revert b. induction s as [|c t IH]; intros b H; [reflexivity|].
  simpl lstrip. destruct (isspace c) eqn:Ec.
  - simpl in H. rewrite (space_in_cls c Ec) in H.
    apply andb_prop in H as [_ Ht]. exact (IH true Ht).
  - exact (text_tidy_weaken b _ H).
Qed.

Lemma text_tidy_rstrip (b : bool) (s : text) :
  tidy b s = true -> tidy b (rs s) = true.
Proof.
  revert b. induction s as [|c t IH]; intros b H; [reflexivity|].
  rewrite text_rstrip_cons.
  destruct (isspace c && is_nil (rs t)); [reflexivity|].
  simpl in *. destruct (cls c).
  - apply andb_prop in H as [H Ht]. rewrite H, (IH true Ht). reflexivity.
  - exact (IH false H).
Qed.

Lemma text_tidy_strip (b : bool) (s : text) :
  tidy b s = true -> tidy false (trim s) = true.
Proof.
  intros H. unfold strip. exact (text_tidy_lstrip b _ (text_tidy_rstrip b _ H)).
Qed.

Lemma text_collapse_tidy (b : bool) (s : text) :
  tidy b s = true -> re_sub_runs (re_space isspace) [blank] b s = s.
Proof.
  revert b. induction s as [|c t IH]; intros b H; [reflexivity|].
  simpl in *. unfold re_space at 1. destruct (isspace c) eqn:Ec.
  - rewrite (space_in_cls c Ec) in H.
    apply andb_prop in H as [H Ht]. apply andb_prop in H as [Hb Hc].
    apply N.eqb_eq in Hc. subst c.
    destruct b; [discriminate|]. rewrite (IH true Ht). reflexivity.
  - destruct (cls c).
    + apply andb_prop in H as [H Ht]. apply andb_prop in H as [_ Hc].
      apply N.eqb_eq in Hc. subst c. rewrite blank_is_space in Ec. discriminate Ec.
    + rewrite (IH false H). reflexivity.
Qed.

Lemma text_tidy_chars (b : bool) (s : text) :
  tidy b s = true -> Forall (fun c => c = blank \/ cls c = false) s.
Proof.
  revert b. induction s as [|c t IH]; intros b H; constructor; simpl in H.
  - destruct (cls c); [|right; reflexivity].
    apply andb_prop in H as [H _]. apply andb_prop in H as [_ Hc].
    left. apply N.eqb_eq. exact Hc.
  - destruct (cls c).
    + apply andb_prop in H as [_ Ht]. exact (IH true Ht).
    + exact (IH false H).
Qed.

Lemma text_all_space_sub (b : bool) (s : text) :
  forallb isspace (sub b s) = forallb cls s.
Proof.
  revert b. induction s as [|c t IH]; intros b; [reflexivity|].
  simpl. destruct (cls c) eqn:Ec; simpl.
  - destruct b; simpl; rewrite ?blank_is_space; apply IH.
  - destruct (isspace c) eqn:E; [|reflexivity].
    rewrite (space_in_cls c E) in Ec. discriminate Ec.
Qed.

Lemma text_all_cls_lstrip (s : text) : forallb cls (ls s) = forallb cls s.
Proof.
  induction s as [|c t IH]; [reflexivity|]. simpl.
  destruct (isspace c) eqn:E; [|reflexivity].
  rewrite (space_in_cls c E). exact IH.
Qed.

Lemma text_all_cls_rstrip (s : text) : forallb cls (rs s) = forallb cls s.
Proof.
  induction s as [|c t IH]; [reflexivity|].
  rewrite text_rstrip_cons, text_is_nil_rstrip. simpl forallb.
  destruct (isspace c) eqn:Ec; simpl.
  - rewrite (space_in_cls c Ec). simpl.
    destruct (forallb isspace t) eqn:Et.
    + simpl. symmetry. clear IH. induction t as [|a t IHt]; [reflexivity|].
      simpl in *. apply andb_prop in Et as [Ea Et].
      rewrite (space_in_cls a Ea). exact (IHt Et).
    + simpl. rewrite (space_in_cls c Ec). exact IH.
  - rewrite IH. reflexivity.
Qed.

End Class.

(** The facts about [str.isspace], [str.isalnum] and [str.lower] that the
    statements rest on. *)
Hypothesis space_nonalnum : forall c, isspace c = true -> isalnum c = false.
Hypothesis blank_is_space : isspace blank = true.
(** Every character of a lowered text is its own lower case, a text of such
    characters is its own lower case, and so is the blank. *)
Hypothesis lower_stable : forall s c, In c (lower s) -> lower [c] = [c].
Hypothesis lower_fixes : forall t, (forall c, In c t -> lower [c] = [c]) -> lower t = t.
Hypothesis lower_blank : lower [blank] = [blank].

Lemma text_space_in_sep (c : N) : isspace c = true -> sep c = true.
Proof.
  intros H. unfold re_nonword_or_underscore, re_word.
  rewrite (space_nonalnum c H). destruct (c =? underscore)%N; reflexivity.
Qed.

Lemma text_space_in_space (c : N) : isspace c = true -> re_space isspace c = true.
Proof. intros H. exact H. Qed.

Lemma text_normalize_tidy (x : text) : isolated_blanks sep false (norm x) = true.
Proof.
  unfold _normalize_text, re_sub.
  rewrite (text_collapse_tidy sep text_space_in_sep blank_is_space false)
    by apply (text_tidy_sub sep text_space_in_sep blank_is_space).
  apply (text_tidy_strip sep text_space_in_sep false).
  apply (text_tidy_sub sep text_space_in_sep blank_is_space).
Qed.

Lemma text_normalize_stripped (x : text) : trim (norm x) = norm x.
Proof. unfold _normalize_text. apply text_strip_idem. Qed.

Lemma text_normalize_chars (x : text) (c : N) :
  In c (norm x) -> c = blank \/ In c (lower x).
Proof.
  unfold _normalize_text, re_sub. intros H.
  apply text_in_strip, text_in_sub in H. destruct H as [H|H]; [left; exact H|].
  apply text_in_sub in H. destruct H as [H|H]; [left; exact H|].
  right. exact (text_in_strip c _ H).
Qed.

Lemma text_normalize_lower (x : text) : lower (norm x) = norm x.
Proof.
  apply lower_fixes. intros c H.
  destruct (text_normalize_chars x c H) as [-> | Hc]; [exact lower_blank|].
  exact (lower_stable x c Hc).
Qed.

(** C5.  Normalisation is idempotent, on the texts of arbitrary code points
    and for every [str.isspace], [str.isalnum] and [str.lower] with the
    stated facts: whitespace is not alphanumeric, the blank is whitespace,
    and [str.lower] leaves unchanged the blank and every text made of
    characters of lowered texts. *)
Theorem unicode_normalize_idempotent (x : text) : norm (norm x) = norm x.
Proof.
  unfold _normalize_text at 1. rewrite text_normalize_lower, text_normalize_stripped.
  unfold re_sub.
  rewrite (text_sub_tidy sep false _ (text_normalize_tidy x)).
  rewrite (text_collapse_tidy sep text_space_in_sep blank_is_space false _
             (text_normalize_tidy x)).
  apply text_normalize_stripped.
Qed.

(** X1.  A normalised text is its own lower case, has no whitespace at
    either end, and consists of characters that [str.isalnum] accepts and of
    blanks, each blank standing alone between two such characters. *)
Theorem unicode_normalize_shape (x : text) :
  lower (norm x) = norm x
  /\ trim (norm x) = norm x
  /\ isolated_blanks sep false (norm x) = true
  /\ Forall (fun c => c = blank \/ isalnum c = true) (norm x).
Proof.
  split; [apply text_normalize_lower|].
  split; [apply text_normalize_stripped|].
  split; [apply text_normalize_tidy|].
  pose proof (text_tidy_chars sep false _ (text_normalize_tidy x)) as H.
  apply (Forall_impl _ (P := fun c => c = blank \/ sep c = false)); [|exact H].
  intros c [Hc|Hc]; [left; exact Hc|right].
  unfold re_nonword_or_underscore, re_word in Hc.
  destruct (isalnum c); [reflexivity|].
  destruct (c =? underscore)%N; discriminate Hc.
Qed.

(** [str.lower] turns no character of the class [[\W_]] into an alphanumeric
    one and no alphanumeric character into characters of the class only. *)
Hypothesis lower_keeps_class : forall s, forallb sep (lower s) = forallb sep s.

(** X2.  The normalised text is empty exactly when every character of the
    input is in the class [[\W_]], that is, when the input has no character
    that [str.isalnum] accepts. *)
Theorem unicode_normalize_empty (x : text) :
  norm x = [] <-> forallb sep x = true.
Proof.
  assert (E : is_nil (norm x) = forallb sep x).
  { unfold _normalize_text, strip, re_sub.
    rewrite text_is_nil_lstrip, <- text_is_nil_rstrip, text_rstrip_idem,
      text_is_nil_rstrip.
    rewrite (text_all_space_sub (re_space isspace) text_space_in_space
               blank_is_space).
    unfold re_space at 1.
    rewrite (text_all_space_sub sep text_space_in_sep blank_is_space).
    rewrite (text_all_cls_lstrip sep text_space_in_sep).
    rewrite (text_all_cls_rstrip sep text_space_in_sep).
    apply lower_keeps_class. }
  rewrite <- E. destruct (norm x); simpl; split; congruence.
Qed.

End TextFacts.

End UnicodeFacts.

(** ** The code points up to U+00FF satisfy the stated facts *)

Module Latin1Facts.

Import Latin1.

Lemma class_space_nonalnum (c : N) :
  class isspace c = true -> class isalnum c = false.
Proof.
  unfold class. destruct (c <? 256)%N; simpl; [|discriminate].
  apply isspace_nonalnum.
Qed.

Lemma class_blank : class isspace Unicode.blank = true.
Proof. reflexivity. Qed.

Lemma lower_code_bounded (c : N) :
  (c <? 256)%N = true -> (lower_code c <? 256)%N = true.
Proof.
  intros H. unfold lower_code. rewrite H. apply N.ltb_lt, N_ascii_bounded.
Qed.

Lemma lower_code_idem (c : N) : lower_code (lower_code c) = lower_code c.
Proof.
  destruct (c <? 256)%N eqn:E.
  - pose proof (lower_code_bounded c E) as B. unfold lower_code at 1. rewrite B.
    unfold lower_code. rewrite E, ascii_N_embedding, lower_char_idem. reflexivity.
  - unfold lower_code. rewrite E, E. reflexivity.
Qed.

Lemma lower_text_stable (s : Unicode.text) (c : N) :
  In c (lower_text s) -> lower_text [c] = [c].
Proof.
  unfold lower_text. intros H. apply in_map_iff in H as (c' & <- & _).
  simpl. rewrite lower_code_idem. reflexivity.
Qed.

Lemma lower_text_fixes (t : Unicode.text) :
  (forall c, In c t -> lower_text [c] = [c]) -> lower_text t = t.
Proof.
  induction t as [|c t IH]; intros H; [reflexivity|].
  simpl. pose proof (H c (or_introl eq_refl)) as Hc. injection Hc as Hc.
  rewrite Hc, IH; [reflexivity|]. intros a Ha. apply H. right. exact Ha.
Qed.

Lemma lower_text_blank : lower_text [Unicode.blank] = [Unicode.blank].
Proof. reflexivity. Qed.

Lemma lower_char_underscore (a : ascii) :
  (N_of_ascii (lower_char a) =? 95)%N = (N_of_ascii a =? 95)%N.
Proof. each_char a. Qed.

Lemma lower_code_class (c : N) :
  Unicode.re_nonword_or_underscore (class isalnum) (lower_code c)
  = Unicode.re_nonword_or_underscore (class isalnum) c.
Proof.
  unfold Unicode.re_nonword_or_underscore, Unicode.re_word, Unicode.underscore.
  destruct (c <? 256)%N eqn:E.
  - assert (Ec : c = N_of_ascii (ascii_of_N c)).
    { symmetry. apply N_ascii_embedding. apply N.ltb_lt. exact E. }
    unfold class. rewrite (lower_code_bounded c E), E. simpl andb.
    unfold lower_code. rewrite E, ascii_N_embedding, isalnum_lower_char.
    rewrite lower_char_underscore, <- Ec. reflexivity.
  - unfold lower_code. rewrite E. reflexivity.
Qed.

Lemma lower_text_class (s : Unicode.text) :
  forallb (Unicode.re_nonword_or_underscore (class isalnum)) (lower_text s)
  = forallb (Unicode.re_nonword_or_underscore (class isalnum)) s.
Proof.
  induction s as [|c t IH]; [reflexivity|].
  simpl. rewrite lower_code_class, IH. reflexivity.
Qed.

Lemma unicode_normalize_idempotent_witness :
  normalize (normalize (codes "Photo-synthesis!"))
  = normalize (codes "Photo-synthesis!").
Proof.
  exact (UnicodeFacts.unicode_normalize_idempotent (class isspace) (class isalnum)
           lower_text class_space_nonalnum class_blank lower_text_stable
           lower_text_fixes lower_text_blank (codes "Photo-synthesis!")).
Defined.

Lemma unicode_normalize_shape_witness :
  lower_text (normalize (codes "  Cell_WALL! ")) = normalize (codes "  Cell_WALL! ")
  /\ Unicode.strip (class isspace) (normalize (codes "  Cell_WALL! "))
     = normalize (codes "  Cell_WALL! ")
  /\ Unicode.isolated_blanks (Unicode.re_nonword_or_underscore (class isalnum))
       false (normalize (codes "  Cell_WALL! ")) = true
  /\ Forall (fun c => c = Unicode.blank \/ class isalnum c = true)
       (normalize (codes "  Cell_WALL! ")).
Proof.
  exact (UnicodeFacts.unicode_normalize_shape (class isspace) (class isalnum)
           lower_text class_space_nonalnum class_blank lower_text_stable
           lower_text_fixes lower_text_blank (codes "  Cell_WALL! ")).
Defined.

Lemma unicode_normalize_empty_witness :
  normalize (codes " ?! _ ") = []
  <-> forallb (Unicode.re_nonword_or_underscore (class isalnum)) (codes " ?! _ ")
      = true.
Proof.
  exact (UnicodeFacts.unicode_normalize_empty (class isspace) (class isalnum)
           lower_text class_space_nonalnum class_blank lower_text_class
           (codes " ?! _ ")).
Defined.

Example latin1_normalize_demo :
  normalize (codes "  Cell_WALL! ") = codes "cell wall".
Proof. vm_compute. reflexivity. Qed.

End Latin1Facts.
